(** * Products microservice: the catalogue service over its Product table

    A shallow embedding of [src/products/products.service.ts]: the five
    methods of [ProductsService] (create, findAll, findOne, update, remove),
    the DTOs they receive, and the single table they read and write through
    the generated ORM client.  The stale compiled copy of the service
    ([dist/products/products.service.js]) is embedded next to it in
    [Module Dist], for the comparison of the two [update] methods. *)

From Stdlib Require Import ZArith String DecimalString DecimalZ List Bool Lia.
Import ListNotations.
Open Scope string_scope.
Open Scope list_scope.
Open Scope Z_scope.

(** ** Data model *)

(** A point in time, in milliseconds since the epoch (a JS [Date]). *)
Definition DateTime := Z.

(** [price] is a JS number that the service stores and hands back and never
    computes with.  [CreateProductDto] admits at most four decimal places,
    so a price is counted here in ten-thousandths. *)
Definition Price := Z.

(** One row of the Product table (the return type of every method in
    [products.controller.d.ts]). *)
Record Product : Type := mkProduct {
  id : Z;
  name : string;
  price : Price;
  available : bool;
  createdAt : DateTime;
  updatedAt : DateTime
}.

(** [CreateProductDto]: name and price, both required. *)
Record CreateProductDto : Type := mkCreateProductDto {
  create_name : string;
  create_price : Price
}.

(** [UpdateProductDto extends PartialType(CreateProductDto)] with an [id]
    field.  A field of a JS object may be missing at run time, so each one
    is an option; [dto_id] is [Some] whenever the DTO came through the
    controller. *)
Record UpdateProductDto : Type := mkUpdateProductDto {
  dto_id : option Z;
  dto_name : option string;
  dto_price : option Price
}.

(** [PaginationDto]: both fields optional and, when present, validated by
    [@IsPositive()] before the service sees them; they are whole numbers
    (row counts for [skip] and [take]), so a present field is a
    [positive]. *)
Record PaginationDto : Type := mkPaginationDto {
  page : option positive;
  limit : option positive
}.

(** The [meta] object and the whole answer of [findAll]. *)
Record Meta : Type := mkMeta {
  meta_page : Z;
  meta_total : Z;
  meta_lastPage : Z
}.

Record Paginated : Type := mkPaginated {
  data : list Product;
  meta : Meta
}.

(** ** Exceptions and promises *)

Inductive Exception : Type :=
| NotFoundException (message : string)
| PrismaClientKnownRequestError (code : string).

Inductive Settled (A : Type) : Type :=
| Fulfilled (value : A)
| Rejected (reason : Exception).

Arguments Fulfilled {A} value.
Arguments Rejected {A} reason.

(** The database file as the service sees it: the rows of the table in
    storage order, the AUTOINCREMENT counter of the table, and the clock
    that the ORM reads when it stamps a row. *)
Record Db : Type := mkDb {
  table : list Product;
  sqlite_sequence : Z;
  clock : DateTime
}.

(** An [async] method: it runs against the database and settles, leaving
    the database in a state of its own whether it was fulfilled or not. *)
Definition Promise (A : Type) : Type := Db -> Settled A * Db.

Definition resolve {A : Type} (a : A) : Promise A :=
  fun db => (Fulfilled a, db).

Definition throw {A : Type} (e : Exception) : Promise A :=
  fun db => (Rejected e, db).

Definition await {A B : Type} (m : Promise A) (k : A -> Promise B) : Promise B :=
  fun db =>
    match m db with
    | (Fulfilled a, db') => k a db'
    | (Rejected e, db') => (Rejected e, db')
    end.

Notation "'let*' x ':=' m 'in' k" := (await m (fun x => k))
  (at level 10, x name, m at level 100, k at level 200).

(** ** The ORM client *)

Module Prisma.

(** The [data] argument of [product.update]: every column it can set. *)
Record ProductUpdateInput : Type := mkProductUpdateInput {
  set_id : option Z;
  set_name : option string;
  set_price : option Price;
  set_available : option bool
}.

Definition or_keep {A : Type} (new : option A) (old : A) : A :=
  match new with
  | Some a => a
  | None => old
  end.

(** Largest key in use. *)
Fixpoint max_id (rows : list Product) : Z :=
  match rows with
  | [] => 0
  | p :: rest => Z.max (id p) (max_id rest)
  end.

(** The key an AUTOINCREMENT column gives the next row: one more than the
    largest key the table has ever held. *)
Definition next_id (db : Db) : Z :=
  1 + Z.max (sqlite_sequence db) (max_id (table db)).

Definition has_id (i : Z) (p : Product) : bool := id p =? i.

(** Overwrites the (first) row carrying key [i]. *)
Fixpoint replace_row (i : Z) (p' : Product) (rows : list Product) : list Product :=
  match rows with
  | [] => []
  | p :: rest => if has_id i p then p' :: rest else p :: replace_row i p' rest
  end.

(** Modelled from the spec: the generated client [generated/prisma/client]
    is not among the sources.  [product.create({ data })] inserts one row
    with a fresh key, [available = true] (the column default) and
    [createdAt = updatedAt = now()], and returns it. *)
Definition product_create (d : CreateProductDto) : Promise Product :=
  fun db =>
    let p := {| id := next_id db;
                name := create_name d;
                price := create_price d;
                available := true;
                createdAt := clock db;
                updatedAt := clock db |} in
    (Fulfilled p,
     {| table := table db ++ [p];
        sqlite_sequence := id p;
        clock := clock db |}).

(** Modelled from the spec: [product.count({ where: { available: true } })]
    counts the rows whose flag is set. *)
Definition product_count_available : Promise Z :=
  fun db => (Fulfilled (Z.of_nat (length (filter available (table db)))), db).

(** Modelled from the spec: [product.findMany({ skip, take, where:
    { available: true } })] returns the rows whose flag is set, in storage
    order (no ORDER BY is given), without the first [skip] of them and at
    most [take] of them. *)
Definition product_findMany_available (skip take : Z) : Promise (list Product) :=
  fun db =>
    (Fulfilled (firstn (Z.to_nat take)
                  (skipn (Z.to_nat skip) (filter available (table db)))),
     db).

(** Modelled from the spec: [product.findFirst({ where: { id, available:
    true } })] returns the first row with that key and the flag set, or
    [null]. *)
Definition product_findFirst_available (i : Z) : Promise (option Product) :=
  fun db =>
    (Fulfilled (find (fun p => has_id i p && available p) (table db)), db).

(** [data] names no column: every field of it is missing. *)
Definition no_data (d : ProductUpdateInput) : bool :=
  match set_id d, set_name d, set_price d, set_available d with
  | None, None, None, None => true
  | _, _, _, _ => false
  end.

(** The row after a write of [data] at time [now]: the columns present in
    [data] are set, [updatedAt] is refreshed (the column is marked
    [@updatedAt]), [createdAt] stays. *)
Definition apply_update (d : ProductUpdateInput) (now : DateTime) (p : Product) : Product :=
  {| id := or_keep (set_id d) (id p);
     name := or_keep (set_name d) (name p);
     price := or_keep (set_price d) (price p);
     available := or_keep (set_available d) (available p);
     createdAt := createdAt p;
     updatedAt := now |}.

(** Modelled from the spec: [product.update({ where: { id }, data })]
    addresses the row with that key, whatever its flag.  When [data] names
    no column the client writes nothing and hands the row back as it is
    stored, [updatedAt] included; otherwise it writes the row and returns
    it as written.  It is rejected with P2025 when no row has the key, and
    with P2002 when [data] moves the row onto a key that another row
    holds; nothing is written then. *)
Definition product_update (i : Z) (d : ProductUpdateInput) : Promise Product :=
  fun db =>
    match find (has_id i) (table db) with
    | None => (Rejected (PrismaClientKnownRequestError "P2025"), db)
    | Some p =>
        if no_data d then (Fulfilled p, db)
        else
          let p' := apply_update d (clock db) p in
          if negb (id p' =? i) && existsb (has_id (id p')) (table db)
          then (Rejected (PrismaClientKnownRequestError "P2002"), db)
          else (Fulfilled p',
                {| table := replace_row i p' (table db);
                   sqlite_sequence := sqlite_sequence db;
                   clock := clock db |})
    end.

End Prisma.

(** ** JavaScript helpers *)

(** [Math.ceil(a / b)] for integers [a] and [b <> 0]: the least integer not
    below the quotient.  The double-precision quotient rounds to the same
    ceiling for every row count below 2^53. *)
Definition Math_ceil_div (a b : Z) : Z := - ((- a) / b).

(** [`${n}`] for an integer [n]. *)
Definition template_number (n : Z) : string :=
  NilEmpty.string_of_int (Z.to_int n).

(** [x = dflt] in a destructuring pattern. *)
Definition default_to (dflt : positive) (x : option positive) : positive :=
  match x with
  | Some v => v
  | None => dflt
  end.

(** ** ProductsService (src/products/products.service.ts) *)

Definition not_found_message (i : Z) : string :=
  ("Product with id #" ++ template_number i ++ " not found")%string.

Definition create (createProductDto : CreateProductDto) : Promise Product :=
  Prisma.product_create createProductDto.

Definition findAll (paginationDto : PaginationDto) : Promise Paginated :=
  let limit := Z.pos (default_to 10%positive (limit paginationDto)) in
  let page := Z.pos (default_to 1%positive (page paginationDto)) in
  let* totalProducts := Prisma.product_count_available in
  let lastPage := Math_ceil_div totalProducts limit in
  let* rows := Prisma.product_findMany_available ((page - 1) * limit) limit in
  resolve {| data := rows;
             meta := {| meta_page := page;
                        meta_total := totalProducts;
                        meta_lastPage := lastPage |} |}.

Definition findOne (i : Z) : Promise Product :=
  let* product := Prisma.product_findFirst_available i in
  match product with
  | None => throw (NotFoundException (not_found_message i))
  | Some p => resolve p
  end.

(** [const { id: __, ...data } = updateProductDto]: the rest of the DTO once
    [id] has been taken out. *)
Definition rest_without_id (updateProductDto : UpdateProductDto) : Prisma.ProductUpdateInput :=
  {| Prisma.set_id := None;
     Prisma.set_name := dto_name updateProductDto;
     Prisma.set_price := dto_price updateProductDto;
     Prisma.set_available := None |}.

Definition update (i : Z) (updateProductDto : UpdateProductDto) : Promise Product :=
  let data := rest_without_id updateProductDto in
  let* _ := findOne i in
  Prisma.product_update i data.

Definition remove (i : Z) : Promise Product :=
  let* _ := findOne i in
  let* product := Prisma.product_update i
                    {| Prisma.set_id := None;
                       Prisma.set_name := None;
                       Prisma.set_price := None;
                       Prisma.set_available := Some false |} in
  resolve product.

(** ** The compiled copy (dist/products/products.service.js) *)

Module Dist.

(** [data: updateProductDto]: the whole DTO, [id] included. *)
Definition whole_dto (updateProductDto : UpdateProductDto) : Prisma.ProductUpdateInput :=
  {| Prisma.set_id := dto_id updateProductDto;
     Prisma.set_name := dto_name updateProductDto;
     Prisma.set_price := dto_price updateProductDto;
     Prisma.set_available := None |}.

Definition update (i : Z) (updateProductDto : UpdateProductDto) : Promise Product :=
  let* _ := findOne i in
  Prisma.product_update i (whole_dto updateProductDto).

End Dist.

(** ** Histories *)

(** What can happen to the database: a call of one of the five methods, or
    time passing.  The clock only moves forward: [Elapse] adds a natural
    number of milliseconds. *)
Inductive Event : Type :=
| Create (d : CreateProductDto)
| FindAll (d : PaginationDto)
| FindOne (i : Z)
| Update (i : Z) (d : UpdateProductDto)
| Remove (i : Z)
| Elapse (ms : N).

Definition step (e : Event) (db : Db) : Db :=
  match e with
  | Create d => snd (create d db)
  | FindAll d => snd (findAll d db)
  | FindOne i => snd (findOne i db)
  | Update i d => snd (update i d db)
  | Remove i => snd (remove i db)
  | Elapse ms =>
      {| table := table db;
         sqlite_sequence := sqlite_sequence db;
         clock := clock db + Z.of_N ms |}
  end.

Definition run (history : list Event) (db : Db) : Db :=
  fold_left (fun d e => step e d) history db.

(** A freshly migrated database whose clock shows [t0]. *)
Definition fresh_db (t0 : DateTime) : Db :=
  {| table := []; sqlite_sequence := 0; clock := t0 |}.

(** The [@id] constraint of the schema: no two rows share a key. *)
Definition primary_key (db : Db) : Prop := NoDup (map id (table db)).

(** The rows a read may show. *)
Definition available_rows (db : Db) : list Product :=
  filter available (table db).

(** ** Notions used in the statements *)

(** The [data] that [remove] writes. *)
Definition soft_delete : Prisma.ProductUpdateInput :=
  {| Prisma.set_id := None;
     Prisma.set_name := None;
     Prisma.set_price := None;
     Prisma.set_available := Some false |}.

(** The row [product.update] returns for [data] at time [now] when it
    found [p]: [p] itself for empty [data], the row written otherwise. *)
Definition written (d : Prisma.ProductUpdateInput) (now : DateTime) (p : Product) : Product :=
  if Prisma.no_data d then p else Prisma.apply_update d now p.

(** Both writers of the service check with [findOne] and then write one
    row by key. *)
Definition checked_write (i : Z) (d : Prisma.ProductUpdateInput) : Promise Product :=
  let* _ := findOne i in Prisma.product_update i d.

(** The three ways a checked write can end. *)
Inductive write_outcome (i : Z) (d : Prisma.ProductUpdateInput) (db : Db) :
  Settled Product * Db -> Prop :=
| write_not_found :
    (forall p, In p (table db) -> id p = i -> available p = false) ->
    write_outcome i d db
      (Rejected (NotFoundException (not_found_message i)), db)
| write_done (p r : Product) :
    In p (table db) -> id p = i ->
    In r (table db) -> id r = i -> available r = true ->
    write_outcome i d db
      (Fulfilled (written d (clock db) p),
       {| table := Prisma.replace_row i (written d (clock db) p) (table db);
          sqlite_sequence := sqlite_sequence db;
          clock := clock db |}).

(** Key [i] is held by a row, and every row holding it is flagged off. *)
Definition soft_deleted (i : Z) (db : Db) : Prop :=
  In i (map id (table db)) /\
  forall p, In p (table db) -> id p = i -> available p = false.

(** No row was created after it was last written, and none was written
    in the future. *)
Definition stamped (db : Db) : Prop :=
  forall p, In p (table db) ->
            createdAt p <= updatedAt p /\ updatedAt p <= clock db.

(** Page [k], [k+1], ... for [n] pages of size [l], one [findAll] after the
    other, their [data] arrays concatenated. *)
Fixpoint pages_from (l k : positive) (n : nat) : Promise (list Product) :=
  match n with
  | O => resolve []
  | S n' =>
      let* r := findAll {| page := Some k; limit := Some l |} in
      let* rest := pages_from l (Pos.succ k) n' in
      resolve (data r ++ rest)
  end.

(** A client that reads the whole catalogue: the first page tells how many
    pages there are, then every page from 1 to [lastPage] is fetched. *)
Definition scan_all_pages (l : positive) : Promise (list Product) :=
  let* first := findAll {| page := Some 1%positive; limit := Some l |} in
  pages_from l 1%positive (Z.to_nat (meta_lastPage (meta first))).

(** What no method may change about a row: its key and its creation
    time. *)
Definition birth (p : Product) : Z * DateTime := (id p, createdAt p).

(** The keys 1, 2, ..., n. *)
Definition first_keys (n : nat) : list Z := map Z.of_nat (seq 1 n).

(** ** Sample data *)

Definition laptop : CreateProductDto := {| create_name := "Laptop"; create_price := 9999900 |}.
Definition mouse : CreateProductDto := {| create_name := "Mouse"; create_price := 255000 |}.

Definition sample_db : Db :=
  run [Create laptop; Elapse 5; Create mouse; Elapse 5] (fresh_db 1000).

Definition laptop_row : Product := mkProduct 1 "Laptop" 9999900 true 1000 1000.
Definition mouse_row : Product := mkProduct 2 "Mouse" 255000 true 1005 1005.

(** A database with three available products. *)
Definition three_row_db : Db :=
  run [Create laptop; Create mouse; Elapse 2; Create laptop] (fresh_db 1000).

(** A database holding the laptop alone. *)
Definition one_row_db : Db := run [Create laptop] (fresh_db 1000).

(** A patch whose [id] differs from the id the call is addressed by. *)
Definition stray_id_patch : UpdateProductDto :=
  {| dto_id := Some 2; dto_name := None; dto_price := Some 8999900 |}.

(** A patch that carries the addressed id and no field to write. *)
Definition bare_id_patch : UpdateProductDto :=
  {| dto_id := Some 1; dto_name := None; dto_price := None |}.

(** The patch the controller would hand over for product 1. *)
Definition controller_patch : UpdateProductDto :=
  {| dto_id := Some 1; dto_name := None; dto_price := Some 8999900 |}.

(** Calls that follow the removal of product 1. *)
Definition aftermath : list Event :=
  [ Elapse 3; Create mouse; Update 1 controller_patch; Remove 1;
    Update 2 stray_id_patch; FindOne 1 ].

(** A patch that renames and reprices. *)
Definition full_patch : UpdateProductDto :=
  {| dto_id := Some 1; dto_name := Some "Notebook"; dto_price := Some 7999900 |}.

(** A history touching every method. *)
Definition busy_history : list Event :=
  [ Create laptop; Elapse 5; Create mouse; FindAll (mkPaginationDto None None);
    Elapse 5; Update 1 controller_patch; FindOne 2; Elapse 0; Remove 2 ].

(** * Properties *)

(** ** The sample database *)

Example sample_db_rows :
  table sample_db =
  [ mkProduct 1 "Laptop" 9999900 true 1000 1000;
    mkProduct 2 "Mouse" 255000 true 1005 1005 ].
Proof. reflexivity. Qed.

Example sample_findAll :
  fst (findAll {| page := Some 2%positive; limit := Some 1%positive |} sample_db) =
  Fulfilled {| data := [ mkProduct 2 "Mouse" 255000 true 1005 1005 ];
               meta := {| meta_page := 2; meta_total := 2; meta_lastPage := 2 |} |}.
Proof. reflexivity. Qed.

Example sample_findOne_missing :
  fst (findOne 7 sample_db) =
  Rejected (NotFoundException "Product with id #7 not found").
Proof. reflexivity. Qed.

(** ** Rows and keys *)

Section Keys.

Import Prisma.

Lemma has_id_true (i : Z) (p : Product) : has_id i p = true <-> id p = i.
Proof. unfold has_id. apply Z.eqb_eq. Qed.

Lemma has_id_false (i : Z) (p : Product) : has_id i p = false <-> id p <> i.
Proof. unfold has_id. apply Z.eqb_neq. Qed.

Lemma in_map_id (p : Product) (rows : list Product) :
  In p rows -> In (id p) (map id rows).
Proof. intros H. apply in_map. exact H. Qed.

(** Under the key constraint a search that can only succeed on key
    [id p] finds [p] itself. *)
Lemma find_by_key (f : Product -> bool) (p : Product) (rows : list Product) :
  NoDup (map id rows) ->
  (forall q, f q = true -> id q = id p) ->
  In p rows -> f p = true ->
  find f rows = Some p.
Proof.
  intros ND Hkey. induction rows as [|q rest IH]; simpl; intros Hin Hp.
  - contradiction.
  - inversion ND as [|? ? Hnotin ND']; subst.
    destruct Hin as [-> | Hin].
    + now rewrite Hp.
    + destruct (f q) eqn:Hq.
      * exfalso. apply Hnotin. rewrite (Hkey q Hq). now apply in_map_id.
      * now apply IH.
Qed.

Lemma find_has_id (i : Z) (p : Product) (rows : list Product) :
  NoDup (map id rows) -> In p rows -> id p = i ->
  find (has_id i) rows = Some p.
Proof.
  intros ND Hin Hi. apply find_by_key; trivial.
  - intros q Hq. apply has_id_true in Hq. congruence.
  - now apply has_id_true.
Qed.

Lemma find_available (i : Z) (p : Product) (rows : list Product) :
  NoDup (map id rows) -> In p rows -> id p = i -> available p = true ->
  find (fun q => has_id i q && available q) rows = Some p.
Proof.
  intros ND Hin Hi Ha. apply find_by_key; trivial.
  - intros q Hq. apply andb_true_iff in Hq. destruct Hq as [Hq _].
    apply has_id_true in Hq. congruence.
  - apply andb_true_iff. split; trivial. now apply has_id_true.
Qed.

Lemma find_available_none (i : Z) (rows : list Product) :
  (forall p, In p rows -> id p = i -> available p = false) ->
  find (fun q => has_id i q && available q) rows = None.
Proof.
  intros Hgone. induction rows as [|q rest IH]; simpl; trivial.
  destruct (has_id i q) eqn:Hq; simpl.
  - apply has_id_true in Hq. rewrite (Hgone q (or_introl eq_refl) Hq).
    apply IH. intros p Hp. apply Hgone. now right.
  - apply IH. intros p Hp. apply Hgone. now right.
Qed.

(** A row that the flagged search finds is also what the search by key
    alone finds, as long as keys are unique. *)
Lemma find_available_has_id (i : Z) (p : Product) (rows : list Product) :
  NoDup (map id rows) ->
  find (fun q => has_id i q && available q) rows = Some p ->
  find (has_id i) rows = Some p.
Proof.
  intros ND Hf. apply find_some in Hf. destruct Hf as [Hin Hp].
  apply andb_true_iff in Hp. destruct Hp as [Hp _].
  apply find_has_id; trivial. now apply has_id_true.
Qed.

Lemma existsb_has_id_false (i : Z) (rows : list Product) :
  ~ In i (map id rows) -> existsb (has_id i) rows = false.
Proof.
  induction rows as [|q rest IH]; simpl; intros Hnot; trivial.
  apply orb_false_iff. split.
  - apply has_id_false. intros E. apply Hnot. now left.
  - apply IH. intros Hin. apply Hnot. now right.
Qed.

(** ** [replace_row] *)

Lemma replace_row_absent (i : Z) (p' : Product) (rows : list Product) :
  ~ In i (map id rows) -> replace_row i p' rows = rows.
Proof.
  induction rows as [|q rest IH]; simpl; intros Hnot; trivial.
  destruct (has_id i q) eqn:Hq.
  - apply has_id_true in Hq. exfalso. apply Hnot. now left.
  - f_equal. apply IH. intros Hin. apply Hnot. now right.
Qed.

Lemma map_if_absent (i : Z) (p' : Product) (rows : list Product) :
  ~ In i (map id rows) ->
  map (fun q => if has_id i q then p' else q) rows = rows.
Proof.
  induction rows as [|q rest IH]; simpl; intros Hnot; trivial.
  destruct (has_id i q) eqn:Hq.
  - apply has_id_true in Hq. exfalso. apply Hnot. now left.
  - f_equal. apply IH. intros Hin. apply Hnot. now right.
Qed.

(** With unique keys, overwriting the row of key [i] touches every row of
    key [i] (there is at most one) and no other. *)
Lemma replace_row_map (i : Z) (p' : Product) (rows : list Product) :
  NoDup (map id rows) ->
  replace_row i p' rows = map (fun q => if has_id i q then p' else q) rows.
Proof.
  induction rows as [|q rest IH]; simpl; intros ND; trivial.
  inversion ND as [|? ? Hnotin ND']; subst.
  destruct (has_id i q) eqn:Hq.
  - apply has_id_true in Hq. subst i. now rewrite map_if_absent.
  - f_equal. now apply IH.
Qed.

(** Writing back the row that is there changes nothing. *)
Lemma replace_row_same (i : Z) (p : Product) (rows : list Product) :
  find (has_id i) rows = Some p -> replace_row i p rows = rows.
Proof.
  induction rows as [|r rest IH]; simpl; intros Hf.
  - reflexivity.
  - destruct (has_id i r).
    + now inversion Hf.
    + f_equal. now apply IH.
Qed.

Lemma replace_row_keys (i : Z) (p' : Product) (rows : list Product) :
  id p' = i -> map id (replace_row i p' rows) = map id rows.
Proof.
  intros Hi. induction rows as [|q rest IH]; simpl; trivial.
  destruct (has_id i q) eqn:Hq; simpl.
  - apply has_id_true in Hq. congruence.
  - now rewrite IH.
Qed.

Lemma replace_row_in (i : Z) (p' q : Product) (rows : list Product) :
  In q (replace_row i p' rows) -> q = p' \/ In q rows.
Proof.
  induction rows as [|r rest IH]; simpl; intros Hin.
  - contradiction.
  - destruct (has_id i r); simpl in Hin.
    + destruct Hin as [<- | Hin]; auto.
    + destruct Hin as [<- | Hin]; auto.
      destruct (IH Hin); auto.
Qed.

Lemma replace_row_length (i : Z) (p' : Product) (rows : list Product) :
  length (replace_row i p' rows) = length rows.
Proof.
  induction rows as [|r rest IH]; simpl; trivial.
  destruct (has_id i r); simpl; congruence.
Qed.

Lemma max_id_bound (p : Product) (rows : list Product) :
  In p rows -> id p <= max_id rows.
Proof.
  induction rows as [|q rest IH]; simpl; intros Hin.
  - contradiction.
  - destruct Hin as [-> | Hin]; [lia|]. specialize (IH Hin). lia.
Qed.

Lemma next_id_fresh (db : Db) : ~ In (next_id db) (map id (table db)).
Proof.
  intros Hin. apply in_map_iff in Hin. destruct Hin as [p [Hp Hin]].
  apply max_id_bound in Hin. unfold next_id in Hp. lia.
Qed.

End Keys.

(** ** What each method does *)

Section Methods.

Import Prisma.

Lemma findOne_unfold (i : Z) (db : Db) :
  findOne i db =
  match find (fun q => has_id i q && available q) (table db) with
  | Some p => (Fulfilled p, db)
  | None => (Rejected (NotFoundException (not_found_message i)), db)
  end.
Proof.
  unfold findOne, await, product_findFirst_available.
  now destruct (find _ (table db)).
Qed.

Lemma findOne_found (i : Z) (p : Product) (db : Db) :
  primary_key db -> In p (table db) -> id p = i -> available p = true ->
  findOne i db = (Fulfilled p, db).
Proof.
  intros PK Hin Hi Ha. rewrite findOne_unfold.
  now rewrite (find_available i p (table db) PK Hin Hi Ha).
Qed.

Lemma findOne_not_found (i : Z) (db : Db) :
  (forall p, In p (table db) -> id p = i -> available p = false) ->
  findOne i db = (Rejected (NotFoundException (not_found_message i)), db).
Proof.
  intros Hgone. rewrite findOne_unfold.
  now rewrite (find_available_none i (table db) Hgone).
Qed.

Lemma findOne_fulfilled (i : Z) (p : Product) (db db' : Db) :
  findOne i db = (Fulfilled p, db') ->
  db' = db /\ In p (table db) /\ id p = i /\ available p = true.
Proof.
  rewrite findOne_unfold.
  destruct (find _ (table db)) as [q|] eqn:Hf; intros E; inversion E; subst.
  apply find_some in Hf. destruct Hf as [Hin Hq].
  apply andb_true_iff in Hq. destruct Hq as [Hq Ha].
  apply has_id_true in Hq. auto.
Qed.

Lemma findOne_state (i : Z) (db : Db) : snd (findOne i db) = db.
Proof. rewrite findOne_unfold. now destruct (find _ (table db)). Qed.

Lemma findAll_unfold (d : PaginationDto) (db : Db) :
  findAll d db =
  (let l := Z.pos (default_to 10%positive (limit d)) in
   let k := Z.pos (default_to 1%positive (page d)) in
   let total := Z.of_nat (length (available_rows db)) in
   (Fulfilled {| data := firstn (Z.to_nat l)
                           (skipn (Z.to_nat ((k - 1) * l)) (available_rows db));
                 meta := {| meta_page := k;
                            meta_total := total;
                            meta_lastPage := Math_ceil_div total l |} |},
    db)).
Proof. reflexivity. Qed.

Lemma findAll_state (d : PaginationDto) (db : Db) : snd (findAll d db) = db.
Proof. reflexivity. Qed.

(** [findAll] in terms of what the caller asked for: the limit and page of
    the DTO where it has them, 10 and 1 where it has not. *)
Lemma findAll_requested (d : PaginationDto) (db : Db) :
  findAll d db =
  (let l := match limit d with Some v => Z.pos v | None => 10 end in
   let k := match page d with Some v => Z.pos v | None => 1 end in
   let total := Z.of_nat (length (available_rows db)) in
   (Fulfilled {| data := firstn (Z.to_nat l)
                           (skipn (Z.to_nat ((k - 1) * l)) (available_rows db));
                 meta := {| meta_page := k;
                            meta_total := total;
                            meta_lastPage := Math_ceil_div total l |} |},
    db)).
Proof.
  rewrite findAll_unfold. now destruct (limit d), (page d).
Qed.

Lemma requested_limit_pos (d : PaginationDto) :
  0 < match limit d with Some v => Z.pos v | None => 10 end.
Proof. destruct (limit d); lia. Qed.

Lemma requested_page_pos (d : PaginationDto) :
  1 <= match page d with Some v => Z.pos v | None => 1 end.
Proof. destruct (page d); lia. Qed.

(** A write through the service that names no new key: the row is written
    in place. *)
Lemma product_update_in_place (i : Z) (d : ProductUpdateInput) (p : Product) (db : Db) :
  set_id d = None ->
  find (has_id i) (table db) = Some p ->
  product_update i d db =
  (Fulfilled (written d (clock db) p),
   {| table := replace_row i (written d (clock db) p) (table db);
      sqlite_sequence := sqlite_sequence db;
      clock := clock db |}).
Proof.
  intros Hd Hf. unfold product_update, written. rewrite Hf.
  destruct (no_data d).
  - rewrite (replace_row_same i p (table db) Hf). now destruct db.
  - apply find_some in Hf. destruct Hf as [_ Hp]. apply has_id_true in Hp.
    replace (id (apply_update d (clock db) p) =? i) with true.
    + reflexivity.
    + symmetry. apply Z.eqb_eq. unfold apply_update; simpl. now rewrite Hd.
Qed.

Lemma update_rejected (i : Z) (d : UpdateProductDto) (db : Db) :
  (forall p, In p (table db) -> id p = i -> available p = false) ->
  update i d db = (Rejected (NotFoundException (not_found_message i)), db).
Proof.
  intros Hgone. unfold update, await. now rewrite (findOne_not_found i db Hgone).
Qed.

Lemma remove_rejected (i : Z) (db : Db) :
  (forall p, In p (table db) -> id p = i -> available p = false) ->
  remove i db = (Rejected (NotFoundException (not_found_message i)), db).
Proof.
  intros Hgone. unfold remove, await. now rewrite (findOne_not_found i db Hgone).
Qed.

(** The row [update] writes and the database it leaves, for a product
    that is there. *)
Lemma update_fulfilled (i : Z) (d : UpdateProductDto) (p : Product) (db : Db) :
  primary_key db -> In p (table db) -> id p = i -> available p = true ->
  let p' := written (rest_without_id d) (clock db) p in
  update i d db =
  (Fulfilled p',
   {| table := map (fun q => if has_id i q then p' else q) (table db);
      sqlite_sequence := sqlite_sequence db;
      clock := clock db |}).
Proof.
  intros PK Hin Hi Ha p'. unfold update, await.
  rewrite (findOne_found i p db PK Hin Hi Ha).
  rewrite (product_update_in_place i (rest_without_id d) p db eq_refl
             (find_has_id i p (table db) PK Hin Hi)).
  fold p'. now rewrite (replace_row_map i p' (table db) PK).
Qed.

Lemma remove_fulfilled (i : Z) (p : Product) (db : Db) :
  primary_key db -> In p (table db) -> id p = i -> available p = true ->
  let p' := written soft_delete (clock db) p in
  remove i db =
  (Fulfilled p',
   {| table := map (fun q => if has_id i q then p' else q) (table db);
      sqlite_sequence := sqlite_sequence db;
      clock := clock db |}).
Proof.
  intros PK Hin Hi Ha p'. unfold remove, await.
  rewrite (findOne_found i p db PK Hin Hi Ha).
  fold soft_delete.
  rewrite (product_update_in_place i soft_delete p db eq_refl
             (find_has_id i p (table db) PK Hin Hi)).
  fold p'. now rewrite (replace_row_map i p' (table db) PK).
Qed.

End Methods.

(** ** The read-then-write shape of [update] and [remove] *)

Section CheckedWrite.

Import Prisma.

Lemma update_as_write (i : Z) (d : UpdateProductDto) (db : Db) :
  update i d db = checked_write i (rest_without_id d) db.
Proof. reflexivity. Qed.

Lemma remove_as_write (i : Z) (db : Db) :
  remove i db = checked_write i soft_delete db.
Proof.
  unfold remove, checked_write, await, resolve. fold soft_delete.
  destruct (findOne i db) as [[p|e] db1]; trivial.
  now destruct (product_update i soft_delete db1) as [[q|e] db2].
Qed.

Lemma checked_write_outcome (i : Z) (d : ProductUpdateInput) (db : Db) :
  set_id d = None -> write_outcome i d db (checked_write i d db).
Proof.
  intros Hd. unfold checked_write, await. rewrite findOne_unfold.
  destruct (find (fun q => has_id i q && available q) (table db)) as [p|] eqn:Hf.
  - apply find_some in Hf. destruct Hf as [Hin Hp].
    apply andb_true_iff in Hp. destruct Hp as [Hp Ha].
    destruct (find (has_id i) (table db)) as [p0|] eqn:Hf0.
    + rewrite (product_update_in_place i d p0 db Hd Hf0).
      apply find_some in Hf0. destruct Hf0 as [Hin0 Hp0].
      apply has_id_true in Hp0. apply has_id_true in Hp.
      now apply write_done with (r := p).
    + exfalso. apply (find_none _ _ Hf0) in Hin. congruence.
  - apply write_not_found. intros p Hin Hi.
    pose proof (find_none _ _ Hf p Hin) as Hn. simpl in Hn.
    apply has_id_true in Hi. rewrite Hi in Hn. exact Hn.
Qed.

Lemma written_id (d : ProductUpdateInput) (now : DateTime) (p : Product) :
  set_id d = None -> id (written d now p) = id p.
Proof.
  intros Hd. unfold written, apply_update. destruct (no_data d); simpl; trivial.
  now rewrite Hd.
Qed.

Lemma written_available (d : ProductUpdateInput) (now : DateTime) (p : Product) :
  set_available d = None -> available (written d now p) = available p.
Proof.
  intros Hd. unfold written, apply_update. destruct (no_data d); simpl; trivial.
  now rewrite Hd.
Qed.

(** With empty [data] the row comes back as it is. *)
Lemma written_no_data (d : ProductUpdateInput) (now : DateTime) (p : Product) :
  no_data d = true -> written d now p = p.
Proof. intros Hd. unfold written. now rewrite Hd. Qed.

(** A write never touches [createdAt], and leaves [updatedAt] either as it
    was or at the time of the write. *)
Lemma written_stamps (d : ProductUpdateInput) (now : DateTime) (p : Product) :
  createdAt (written d now p) = createdAt p /\
  (updatedAt (written d now p) = updatedAt p \/ updatedAt (written d now p) = now).
Proof. unfold written. destruct (no_data d); simpl; auto. Qed.

Lemma checked_write_keys (i : Z) (d : ProductUpdateInput) (db : Db) :
  set_id d = None ->
  map id (table (snd (checked_write i d db))) = map id (table db).
Proof.
  intros Hd.
  destruct (checked_write_outcome i d db Hd) as [Hgone | p r Hin Hi _ _ _]; simpl.
  - reflexivity.
  - apply replace_row_keys. now rewrite written_id.
Qed.

Lemma checked_write_clock (i : Z) (d : ProductUpdateInput) (db : Db) :
  set_id d = None -> clock (snd (checked_write i d db)) = clock db.
Proof.
  intros Hd. now destruct (checked_write_outcome i d db Hd).
Qed.

(** Every row after a checked write is a row from before, or the one row
    written. *)
Lemma checked_write_rows (i : Z) (d : ProductUpdateInput) (db : Db) (q : Product) :
  set_id d = None ->
  In q (table (snd (checked_write i d db))) ->
  In q (table db) \/
  exists p, In p (table db) /\ id p = i /\ q = written d (clock db) p.
Proof.
  intros Hd.
  destruct (checked_write_outcome i d db Hd) as [Hgone | p r Hin Hi _ _ _]; simpl.
  - auto.
  - intros Hq. apply replace_row_in in Hq. destruct Hq as [-> | Hq]; eauto.
Qed.

End CheckedWrite.

(** ** Invariants of a history *)

Section Histories.

Import Prisma.

Lemma run_app (h1 h2 : list Event) (db : Db) :
  run (h1 ++ h2) db = run h2 (run h1 db).
Proof. unfold run. apply fold_left_app. Qed.

Lemma run_cons (e : Event) (h : list Event) (db : Db) :
  run (e :: h) db = run h (step e db).
Proof. reflexivity. Qed.

(** A property kept by every event is kept by every history. *)
Lemma run_invariant (P : Db -> Prop) :
  (forall e db, P db -> P (step e db)) ->
  forall h db, P db -> P (run h db).
Proof.
  intros Hstep h. induction h as [|e h IH]; intros db HP.
  - exact HP.
  - rewrite run_cons. apply IH. now apply Hstep.
Qed.

Lemma step_update (i : Z) (d : UpdateProductDto) (db : Db) :
  step (Update i d) db = snd (checked_write i (rest_without_id d) db).
Proof. reflexivity. Qed.

Lemma step_remove (i : Z) (db : Db) :
  step (Remove i) db = snd (checked_write i soft_delete db).
Proof. simpl. now rewrite remove_as_write. Qed.

Lemma step_create_table (d : CreateProductDto) (db : Db) :
  table (step (Create d) db) =
  table db ++ [ {| id := next_id db;
                   name := create_name d;
                   price := create_price d;
                   available := true;
                   createdAt := clock db;
                   updatedAt := clock db |} ].
Proof. reflexivity. Qed.

(** The key constraint survives every event. *)
Lemma step_primary_key (e : Event) (db : Db) :
  primary_key db -> primary_key (step e db).
Proof.
  unfold primary_key. intros PK. destruct e as [d|d|i|i d|i|ms].
  - rewrite step_create_table, map_app. simpl.
    apply NoDup_app; [exact PK | repeat constructor; auto |].
    intros k Hk [<- | []]. now apply (next_id_fresh db).
  - exact PK.
  - simpl. now rewrite findOne_state.
  - rewrite step_update. now rewrite checked_write_keys.
  - rewrite step_remove. now rewrite checked_write_keys.
  - exact PK.
Qed.

Lemma run_primary_key (h : list Event) (db : Db) :
  primary_key db -> primary_key (run h db).
Proof. apply run_invariant. exact step_primary_key. Qed.

Lemma fresh_primary_key (t0 : DateTime) : primary_key (fresh_db t0).
Proof. constructor. Qed.

(** *** A soft-deleted key stays soft-deleted *)

Lemma checked_write_soft_deleted (i j : Z) (d : ProductUpdateInput) (db : Db) :
  set_id d = None ->
  soft_deleted i db -> soft_deleted i (snd (checked_write j d db)).
Proof.
  intros Hd [Hheld Hoff]. split.
  - now rewrite checked_write_keys.
  - intros q Hq Hi.
    destruct (checked_write_outcome j d db Hd) as [Hgone | p r Hin Hj Hr Hrj Hra];
      simpl in Hq.
    + now apply Hoff.
    + apply replace_row_in in Hq. destruct Hq as [-> | Hq].
      * (* the write went to key [i] itself, so the check passed on a
           row of key [i] that is flagged on *)
        rewrite written_id in Hi by exact Hd.
        assert (available r = false) by (apply Hoff; congruence).
        congruence.
      * now apply Hoff.
Qed.

Lemma step_soft_deleted (i : Z) (e : Event) (db : Db) :
  soft_deleted i db -> soft_deleted i (step e db).
Proof.
  intros SD. destruct e as [d|d|j|j d|j|ms].
  - destruct SD as [Hheld Hoff]. split.
    + rewrite step_create_table, map_app. apply in_or_app. now left.
    + rewrite step_create_table. intros p Hp Hi.
      apply in_app_or in Hp. destruct Hp as [Hp | [<- | []]].
      * now apply Hoff.
      * simpl in Hi. exfalso. apply (next_id_fresh db). now rewrite Hi.
  - exact SD.
  - simpl. now rewrite findOne_state.
  - rewrite step_update. now apply checked_write_soft_deleted.
  - rewrite step_remove. now apply checked_write_soft_deleted.
  - exact SD.
Qed.

Lemma run_soft_deleted (i : Z) (h : list Event) (db : Db) :
  soft_deleted i db -> soft_deleted i (run h db).
Proof. apply run_invariant. intros e d. apply step_soft_deleted. Qed.

(** *** Time stamps *)

Lemma checked_write_stamped (i : Z) (d : ProductUpdateInput) (db : Db) :
  set_id d = None -> stamped db -> stamped (snd (checked_write i d db)).
Proof.
  intros Hd St q Hq. rewrite checked_write_clock by exact Hd.
  apply checked_write_rows in Hq; [|exact Hd].
  destruct Hq as [Hq | [p [Hp [_ ->]]]].
  - now apply St.
  - destruct (St p Hp). destruct (written_stamps d (clock db) p) as [Hc [Hu | Hu]];
      rewrite Hc, Hu; lia.
Qed.

Lemma step_stamped (e : Event) (db : Db) : stamped db -> stamped (step e db).
Proof.
  intros St. destruct e as [d|d|j|j d|j|ms].
  - intros p Hp. rewrite step_create_table in Hp.
    apply in_app_or in Hp. destruct Hp as [Hp | [<- | []]].
    + now apply St.
    + simpl. lia.
  - exact St.
  - simpl. now rewrite findOne_state.
  - rewrite step_update. now apply checked_write_stamped.
  - rewrite step_remove. now apply checked_write_stamped.
  - intros p Hp. simpl in *. destruct (St p Hp). lia.
Qed.

Lemma run_stamped (h : list Event) (db : Db) : stamped db -> stamped (run h db).
Proof. apply run_invariant. exact step_stamped. Qed.

End Histories.

(** ** Pages *)

Section Pagination.

Lemma Math_ceil_div_bounds (a b : Z) :
  0 < b ->
  b * (Math_ceil_div a b - 1) < a <= b * Math_ceil_div a b.
Proof.
  intros Hb. unfold Math_ceil_div.
  pose proof (Z.div_mod (- a) b) as Hdm.
  pose proof (Z.mod_pos_bound (- a) b Hb) as Hr.
  specialize (Hdm ltac:(lia)). nia.
Qed.

Lemma Math_ceil_div_zero (a b : Z) :
  0 < b -> 0 <= a -> (Math_ceil_div a b = 0 <-> a = 0).
Proof.
  intros Hb Ha. pose proof (Math_ceil_div_bounds a b Hb). split; intros E.
  - rewrite E in *. lia.
  - subst a. nia.
Qed.

Lemma Math_ceil_div_nonneg (a b : Z) :
  0 < b -> 0 <= a -> 0 <= Math_ceil_div a b.
Proof.
  intros Hb Ha. pose proof (Math_ceil_div_bounds a b Hb). nia.
Qed.

Lemma in_firstn {A : Type} (n : nat) (x : A) (xs : list A) :
  In x (firstn n xs) -> In x xs.
Proof.
  intros H. rewrite <- (firstn_skipn n xs). apply in_or_app. now left.
Qed.

Lemma in_skipn {A : Type} (n : nat) (x : A) (xs : list A) :
  In x (skipn n xs) -> In x xs.
Proof.
  intros H. rewrite <- (firstn_skipn n xs). apply in_or_app. now right.
Qed.

(** Cutting what is left after [k] chunks into [n] more chunks of size [l]
    loses nothing, provided [n] chunks are enough. *)
Lemma concat_chunks {A : Type} (l : nat) (xs : list A) :
  forall (n k : nat),
    (length xs <= (k + n) * l)%nat ->
    concat (map (fun j => firstn l (skipn (j * l) xs)) (seq k n)) =
    skipn (k * l) xs.
Proof.
  induction n as [|n IH]; intros k Hlen; simpl.
  - symmetry. apply skipn_all2. lia.
  - rewrite IH by lia. simpl.
    rewrite <- (skipn_skipn l (k * l) xs).
    apply firstn_skipn.
Qed.

Lemma skip_to_nat (k l : positive) :
  Z.to_nat ((Z.pos k - 1) * Z.pos l) = ((Pos.to_nat k - 1) * Pos.to_nat l)%nat.
Proof.
  rewrite Z2Nat.inj_mul by lia. rewrite Z2Nat.inj_pos. f_equal. lia.
Qed.

Lemma findAll_data (k l : positive) (db : Db) :
  findAll {| page := Some k; limit := Some l |} db =
  (Fulfilled
     {| data := firstn (Pos.to_nat l)
                  (skipn ((Pos.to_nat k - 1) * Pos.to_nat l) (available_rows db));
        meta := {| meta_page := Z.pos k;
                   meta_total := Z.of_nat (length (available_rows db));
                   meta_lastPage :=
                     Math_ceil_div (Z.of_nat (length (available_rows db))) (Z.pos l) |} |},
   db).
Proof.
  rewrite findAll_unfold. simpl default_to. cbv zeta.
  now rewrite skip_to_nat, Z2Nat.inj_pos.
Qed.

Lemma pages_from_chunks (l : positive) (db : Db) :
  forall (n : nat) (k : positive),
    pages_from l k n db =
    (Fulfilled
       (concat (map (fun j => firstn (Pos.to_nat l)
                                (skipn (j * Pos.to_nat l) (available_rows db)))
                    (seq (Pos.to_nat k - 1) n))),
     db).
Proof.
  induction n as [|n IH]; intros k.
  - reflexivity.
  - cbn [pages_from]. unfold await at 1. rewrite findAll_data.
    unfold await at 1. rewrite IH. unfold resolve. cbn [data seq map concat].
    replace (Pos.to_nat (Pos.succ k) - 1)%nat with (S (Pos.to_nat k - 1)) by lia.
    reflexivity.
Qed.

Lemma scan_all_pages_rows (l : positive) (db : Db) :
  scan_all_pages l db = (Fulfilled (available_rows db), db).
Proof.
  unfold scan_all_pages, await. rewrite findAll_data. cbn [meta meta_lastPage].
  rewrite pages_from_chunks. f_equal. simpl (Pos.to_nat 1 - 1)%nat.
  rewrite concat_chunks.
  - reflexivity.
  - pose proof (Math_ceil_div_bounds (Z.of_nat (length (available_rows db)))
                  (Z.pos l) ltac:(lia)) as Hb.
    pose proof (Math_ceil_div_nonneg (Z.of_nat (length (available_rows db)))
                  (Z.pos l) ltac:(lia) ltac:(lia)) as Hn.
    simpl (0 + _)%nat. nia.
Qed.

Lemma available_rows_in (q : Product) (db : Db) :
  In q (available_rows db) <-> In q (table db) /\ available q = true.
Proof. unfold available_rows. apply filter_In. Qed.

Lemma NoDup_map_filter {A B : Type} (f : A -> B) (g : A -> bool) (xs : list A) :
  NoDup (map f xs) -> NoDup (map f (filter g xs)).
Proof.
  induction xs as [|x xs IH]; simpl; intros ND; trivial.
  inversion ND as [|? ? Hnotin ND']; subst.
  destruct (g x); simpl; auto.
  constructor; auto.
  intros Hin. apply Hnotin. apply in_map_iff in Hin.
  destruct Hin as [y [Hy Hin]]. apply filter_In in Hin.
  rewrite <- Hy. apply in_map. tauto.
Qed.

End Pagination.

(** ** The claims *)

Section Claims.

Import Prisma.

(** After a fulfilled [remove], every row of key [i] is flagged off. *)
Lemma remove_soft_deletes (i : Z) (p : Product) (db db1 : Db) :
  primary_key db -> remove i db = (Fulfilled p, db1) -> soft_deleted i db1.
Proof.
  intros PK Hrm. rewrite remove_as_write in Hrm.
  pose proof (checked_write_outcome i soft_delete db eq_refl) as Hout.
  rewrite Hrm in Hout.
  inversion Hout as [Hgone E | p0 r Hin Hi Hr Hri Hra E]; subst.
  split; simpl.
  - rewrite replace_row_keys by reflexivity. now apply in_map_id.
  - rewrite (replace_row_map (id p0) _ (table db) PK).
    intros q Hq Hqi. apply in_map_iff in Hq. destruct Hq as [q0 [Hq0 _]].
    destruct (has_id (id p0) q0) eqn:Hk.
    + now subst q.
    + subst q. apply has_id_false in Hk. contradiction.
Qed.

(** C1. Soft-delete invisibility: once [remove i] has been fulfilled,
    whatever calls follow, [findOne i] is rejected with the not-found
    exception and no page of [findAll], for any page and limit, carries a
    product of key [i]. *)
Theorem soft_delete_invisible (i : Z) (p : Product) (db db1 : Db) (later : list Event) :
  primary_key db ->
  remove i db = (Fulfilled p, db1) ->
  let db2 := run later db1 in
  findOne i db2 = (Rejected (NotFoundException (not_found_message i)), db2) /\
  forall d : PaginationDto,
  exists r, findAll d db2 = (Fulfilled r, db2) /\
            forall q, In q (data r) -> id q <> i.
Proof.
  intros PK Hrm db2.
  assert (SD : soft_deleted i db2).
  { apply run_soft_deleted. exact (remove_soft_deletes i p db db1 PK Hrm). }
  destruct SD as [_ Hoff]. split.
  - now apply findOne_not_found.
  - intros d. rewrite findAll_unfold. cbv zeta. eexists. split; [reflexivity|].
    cbn [data]. intros q Hq Hqi.
    apply in_firstn, in_skipn, available_rows_in in Hq. destruct Hq as [Hin Ha].
    rewrite (Hoff q Hin Hqi) in Ha. discriminate.
Qed.

(** C2. Pagination coverage: reading pages 1 to [lastPage] of size [limit]
    one after the other and concatenating their [data] yields exactly the
    available rows, in order, as many as [meta.total] says and, keys being
    unique, without a repeat; the database is left as it was. *)
Theorem pagination_coverage (l : positive) (db : Db) :
  scan_all_pages l db = (Fulfilled (available_rows db), db) /\
  (exists r, findAll {| page := Some 1%positive; limit := Some l |} db = (Fulfilled r, db) /\
             meta_total (meta r) = Z.of_nat (length (available_rows db))) /\
  (primary_key db -> NoDup (available_rows db)).
Proof.
  split; [apply scan_all_pages_rows|]. split.
  - rewrite findAll_data. eexists. split; reflexivity.
  - intros PK. apply (NoDup_map_inv id). now apply NoDup_map_filter.
Qed.

(** C3. [lastPage] correctness: [findAll] is always fulfilled, [meta.total]
    is the number of rows with [available = true], [meta.lastPage] is the
    ceiling of [total / limit] (the one integer [n] with
    [limit * (n - 1) < total <= limit * n]) for the limit the caller asked
    for, or 10 when none was given, and it is 0 exactly when [total] is 0. *)
Theorem lastPage_correct (d : PaginationDto) (db : Db) :
  exists r, findAll d db = (Fulfilled r, db) /\
    let l := match limit d with Some v => Z.pos v | None => 10 end in
    let total := meta_total (meta r) in
    let lastPage := meta_lastPage (meta r) in
    total = Z.of_nat (length (filter available (table db))) /\
    l * (lastPage - 1) < total <= l * lastPage /\
    (lastPage = 0 <-> total = 0).
Proof.
  rewrite findAll_requested. cbv zeta. eexists. split; [reflexivity|].
  cbn [meta meta_total meta_lastPage]. split; [reflexivity|].
  pose proof (requested_limit_pos d) as Hl. split.
  - now apply Math_ceil_div_bounds.
  - apply Math_ceil_div_zero; lia.
Qed.

(** C4. An id with no available row (never there, or soft-deleted) makes
    both [update] and [remove] fail with the not-found exception and leave
    the database exactly as it was; in particular a second [remove] after a
    fulfilled one is rejected. *)
Theorem unavailable_id_rejected (i : Z) (db : Db) :
  ((forall p, In p (table db) -> id p = i -> available p = false) ->
   (forall d, update i d db =
              (Rejected (NotFoundException (not_found_message i)), db)) /\
   remove i db = (Rejected (NotFoundException (not_found_message i)), db)) /\
  (primary_key db ->
   forall p db1, remove i db = (Fulfilled p, db1) ->
                 remove i db1 =
                 (Rejected (NotFoundException (not_found_message i)), db1)).
Proof.
  split.
  - intros Hgone. split.
    + intros d. now apply update_rejected.
    + now apply remove_rejected.
  - intros PK p db1 Hrm. apply remove_rejected.
    exact (proj2 (remove_soft_deletes i p db db1 PK Hrm)).
Qed.

Lemma append_length (a b : string) :
  String.length (a ++ b) = (String.length a + String.length b)%nat.
Proof. induction a as [|c a IH]; simpl; congruence. Qed.

Lemma append_cancel_r (s a b : string) : (a ++ s = b ++ s)%string -> a = b.
Proof.
  revert b. induction a as [|c a IH]; intros [|c' b] E; simpl in E; trivial.
  - apply (f_equal String.length) in E. simpl in E. rewrite append_length in E. lia.
  - apply (f_equal String.length) in E. simpl in E. rewrite append_length in E. lia.
  - inversion E. f_equal. now apply IH.
Qed.

(** The message names the id: different ids give different messages. *)
Lemma not_found_message_inj (i j : Z) :
  not_found_message i = not_found_message j -> i = j.
Proof.
  unfold not_found_message, template_number. intros E.
  simpl in E. inversion E as [E']. apply append_cancel_r in E'.
  apply to_int_inj. apply (f_equal NilEmpty.int_of_string) in E'.
  rewrite !NilEmpty.isi in E'. congruence.
Qed.

(** C5. [findOne] raises-iff: it returns the row whose key is [i] and
    whose flag is set when there is one, and is rejected with the not-found
    exception, whose message carries [i], when there is none, be the key
    unknown or soft-deleted; either way the database is untouched. *)
Theorem findOne_raises_iff (i : Z) (db : Db) :
  (primary_key db ->
   forall p, In p (table db) -> id p = i -> available p = true ->
             findOne i db = (Fulfilled p, db)) /\
  ((forall p, In p (table db) -> id p = i -> available p = false) ->
   findOne i db = (Rejected (NotFoundException (not_found_message i)), db)) /\
  (forall p db', findOne i db = (Fulfilled p, db') ->
                 db' = db /\ In p (table db) /\ id p = i /\ available p = true) /\
  (forall e db', findOne i db = (Rejected e, db') ->
                 db' = db /\ e = NotFoundException (not_found_message i) /\
                 forall p, In p (table db) -> id p = i -> available p = false) /\
  (forall j, not_found_message i = not_found_message j -> i = j).
Proof.
  split; [|split; [|split; [|split]]].
  - intros PK p Hin Hi Ha. now apply findOne_found.
  - apply findOne_not_found.
  - intros p db'. apply findOne_fulfilled.
  - intros e db'. rewrite findOne_unfold.
    destruct (find _ (table db)) as [q|] eqn:Hf; intros E; inversion E; subst.
    split; [reflexivity|]. split; [reflexivity|].
    intros p Hin Hi. pose proof (find_none _ _ Hf p Hin) as Hn. simpl in Hn.
    apply has_id_true in Hi. now rewrite Hi in Hn.
  - apply not_found_message_inj.
Qed.

(** C6. Partial update: [update(id, {price: X})] on an available product
    writes [X] into [price] and the current time into [updatedAt] of that
    row; its [id], [name], [createdAt] and [available] are as before, and
    every other row of the table is as before. *)
Theorem update_price_frame (i : Z) (patch_id : option Z) (X : Price) (p : Product) (db : Db) :
  primary_key db -> In p (table db) -> id p = i -> available p = true ->
  let p' := {| id := id p;
               name := name p;
               price := X;
               available := available p;
               createdAt := createdAt p;
               updatedAt := clock db |} in
  update i {| dto_id := patch_id; dto_name := None; dto_price := Some X |} db =
  (Fulfilled p',
   {| table := map (fun q => if id q =? i then p' else q) (table db);
      sqlite_sequence := sqlite_sequence db;
      clock := clock db |}).
Proof.
  intros PK Hin Hi Ha p'.
  exact (update_fulfilled i _ p db PK Hin Hi Ha).
Qed.

(** C7. An [id] in the patch is ignored, not rejected: on an available
    product, [update] with a patch carrying an [id] does exactly what it
    does with the same patch without the [id]; it is fulfilled, the row
    returned has the key it was addressed by, and the keys of the table are
    as before. *)
Theorem patch_id_ignored (i j : Z) (n : option string) (x : option Price) (p : Product) (db : Db) :
  primary_key db -> In p (table db) -> id p = i -> available p = true ->
  let with_id := {| dto_id := Some j; dto_name := n; dto_price := x |} in
  let without_id := {| dto_id := None; dto_name := n; dto_price := x |} in
  update i with_id db = update i without_id db /\
  exists p' db', update i with_id db = (Fulfilled p', db') /\
                 id p' = i /\
                 map id (table db') = map id (table db).
Proof.
  intros PK Hin Hi Ha with_id without_id. split; [reflexivity|].
  rewrite (update_fulfilled i with_id p db PK Hin Hi Ha).
  assert (Hkey : id (written (rest_without_id with_id) (clock db) p) = i).
  { rewrite written_id; [exact Hi | reflexivity]. }
  eexists. eexists. split; [reflexivity|]. split; [exact Hkey|].
  cbn [table]. rewrite <- (replace_row_map i _ (table db) PK).
  apply replace_row_keys. exact Hkey.
Qed.

(** C8. A page beyond [lastPage] is no error: [findAll] is fulfilled,
    [meta.page] echoes the page asked for, [meta.total] is the count of
    available rows, [meta.lastPage] is the ceiling of that count over the
    limit asked for, as on any other page, and [data] is empty whenever the
    page asked for lies beyond [meta.lastPage]. *)
Theorem out_of_range_page_empty (d : PaginationDto) (db : Db) :
  let l := match limit d with Some v => Z.pos v | None => 10 end in
  let k := match page d with Some v => Z.pos v | None => 1 end in
  let total := Z.of_nat (length (filter available (table db))) in
  exists r,
    findAll d db = (Fulfilled r, db) /\
    meta_page (meta r) = k /\
    meta_total (meta r) = total /\
    l * (meta_lastPage (meta r) - 1) < total <= l * meta_lastPage (meta r) /\
    (meta_lastPage (meta r) < k -> data r = []).
Proof.
  intros l k total. rewrite findAll_requested. cbv zeta.
  fold l k. unfold available_rows. fold total.
  eexists. split; [reflexivity|].
  cbn [meta data meta_page meta_total meta_lastPage].
  split; [reflexivity|]. split; [reflexivity|].
  pose proof (requested_limit_pos d) as Hl. fold l in Hl.
  pose proof (Math_ceil_div_bounds total l Hl) as Hb.
  split; [exact Hb|]. intros Hk.
  rewrite (skipn_all2 (n := Z.to_nat ((k - 1) * l))).
  - apply firstn_nil.
  - unfold total in *. nia.
Qed.

(** C9. Monotonic time stamps: in a database that started empty, after any
    sequence of calls to the five methods, with time never running
    backwards in between, every row has [updatedAt >= createdAt]. *)
Theorem timestamps_monotonic (t0 : DateTime) (history : list Event) (p : Product) :
  In p (table (run history (fresh_db t0))) ->
  createdAt p <= updatedAt p.
Proof.
  intros Hin.
  assert (St : stamped (run history (fresh_db t0))).
  { apply run_stamped. intros q []. }
  exact (proj1 (St p Hin)).
Qed.

(** C10, as amended. The source and the compiled copy of [update] agree,
    in what they return and in the database they leave, on every patch
    that has no [id], and on every patch whose [id] is the id the call is
    addressed by and which carries a name or a price besides. *)
Theorem update_source_dist_agree (i : Z) (d : UpdateProductDto) (db : Db) :
  dto_id d = None \/
  (dto_id d = Some i /\ (dto_name d <> None \/ dto_price d <> None)) ->
  Dist.update i d db = update i d db.
Proof.
  intros Hid. unfold Dist.update, update, await.
  destruct (findOne i db) as [[q|e] db1]; trivial.
  destruct Hid as [Hnone | [Hsame Hfield]].
  - replace (Dist.whole_dto d) with (rest_without_id d); trivial.
    unfold Dist.whole_dto, rest_without_id. now rewrite Hnone.
  - unfold product_update.
    destruct (find (has_id i) (table db1)) as [p|] eqn:Hf; trivial.
    apply find_some in Hf. destruct Hf as [_ Hp]. apply has_id_true in Hp.
    assert (Hw : no_data (Dist.whole_dto d) = false).
    { unfold no_data, Dist.whole_dto. cbn. now rewrite Hsame. }
    assert (Hr : no_data (rest_without_id d) = false).
    { unfold no_data, rest_without_id. cbn.
      destruct (dto_name d), (dto_price d); trivial. now destruct Hfield. }
    rewrite Hw, Hr.
    replace (apply_update (Dist.whole_dto d) (clock db1) p)
      with (apply_update (rest_without_id d) (clock db1) p); trivial.
    unfold apply_update, Dist.whole_dto, rest_without_id; simpl.
    rewrite Hsame. simpl. congruence.
Qed.

End Claims.

(** ** The claims on the sample data *)

Section Instances.

Lemma sample_primary_key : primary_key sample_db.
Proof.
  unfold primary_key. simpl. repeat constructor; simpl; intuition discriminate.
Defined.

Lemma soft_delete_invisible_witness :
  exists p db1,
    remove 1 sample_db = (Fulfilled p, db1) /\
    let db2 := run aftermath db1 in
    findOne 1 db2 = (Rejected (NotFoundException (not_found_message 1)), db2) /\
    forall d : PaginationDto,
    exists r, findAll d db2 = (Fulfilled r, db2) /\
              forall q, In q (data r) -> id q <> 1.
Proof.
  exists (mkProduct 1 "Laptop" 9999900 false 1000 1010).
  exists (snd (remove 1 sample_db)).
  split; [reflexivity|].
  apply (soft_delete_invisible 1 (mkProduct 1 "Laptop" 9999900 false 1000 1010)
           sample_db (snd (remove 1 sample_db)) aftermath).
  - exact sample_primary_key.
  - reflexivity.
Defined.

Lemma pagination_coverage_witness :
  scan_all_pages 1 sample_db = (Fulfilled [laptop_row; mouse_row], sample_db) /\
  NoDup (available_rows sample_db).
Proof.
  destruct (pagination_coverage 1 sample_db) as [Hscan [_ Hnodup]]. split.
  - exact Hscan.
  - apply Hnodup. exact sample_primary_key.
Defined.

Lemma unavailable_id_rejected_witness :
  update 7 controller_patch sample_db =
    (Rejected (NotFoundException "Product with id #7 not found"), sample_db) /\
  remove 7 sample_db =
    (Rejected (NotFoundException "Product with id #7 not found"), sample_db) /\
  remove 1 (snd (remove 1 sample_db)) =
    (Rejected (NotFoundException "Product with id #1 not found"),
     snd (remove 1 sample_db)).
Proof.
  destruct (unavailable_id_rejected 7 sample_db) as [Hgone _].
  destruct (unavailable_id_rejected 1 sample_db) as [_ Htwice].
  assert (H7 : forall p, In p (table sample_db) -> id p = 7 -> available p = false).
  { simpl. intros p [<- | [<- | []]]; simpl; discriminate. }
  destruct (Hgone H7) as [Hupd Hrm]. split; [apply Hupd|]. split; [exact Hrm|].
  apply (Htwice sample_primary_key (mkProduct 1 "Laptop" 9999900 false 1000 1010)).
  reflexivity.
Defined.

Lemma findOne_raises_iff_witness :
  findOne 2 sample_db = (Fulfilled mouse_row, sample_db) /\
  findOne 7 sample_db =
    (Rejected (NotFoundException "Product with id #7 not found"), sample_db).
Proof.
  destruct (findOne_raises_iff 2 sample_db) as [Hfound _].
  destruct (findOne_raises_iff 7 sample_db) as [_ [Hmissing _]].
  split.
  - apply (Hfound sample_primary_key mouse_row).
    + simpl. right. left. reflexivity.
    + reflexivity.
    + reflexivity.
  - apply Hmissing. simpl. intros p [<- | [<- | []]]; simpl; discriminate.
Defined.

Lemma update_price_frame_witness :
  update 1 {| dto_id := None; dto_name := None; dto_price := Some 8999900 |} sample_db =
  (Fulfilled (mkProduct 1 "Laptop" 8999900 true 1000 1010),
   {| table := [ mkProduct 1 "Laptop" 8999900 true 1000 1010; mouse_row ];
      sqlite_sequence := 2;
      clock := 1010 |}).
Proof.
  apply (update_price_frame 1 None 8999900 laptop_row sample_db).
  - exact sample_primary_key.
  - simpl. left. reflexivity.
  - reflexivity.
  - reflexivity.
Defined.

Lemma patch_id_ignored_witness :
  update 1 stray_id_patch sample_db =
  update 1 {| dto_id := None; dto_name := None; dto_price := Some 8999900 |} sample_db /\
  exists p' db', update 1 stray_id_patch sample_db = (Fulfilled p', db') /\
                 id p' = 1 /\
                 map id (table db') = map id (table sample_db).
Proof.
  apply (patch_id_ignored 1 2 None (Some 8999900) laptop_row sample_db).
  - exact sample_primary_key.
  - simpl. left. reflexivity.
  - reflexivity.
  - reflexivity.
Defined.

Lemma out_of_range_page_empty_witness :
  exists r,
    findAll {| page := Some 5%positive; limit := Some 1%positive |} sample_db =
      (Fulfilled r, sample_db) /\
    data r = [] /\
    meta_page (meta r) = 5 /\ meta_total (meta r) = 2 /\ meta_lastPage (meta r) = 2.
Proof.
  destruct (out_of_range_page_empty
              {| page := Some 5%positive; limit := Some 1%positive |} sample_db)
    as [r [Hf [Hp [Ht [Hb Hempty]]]]].
  cbn [limit page] in Hp, Ht, Hb, Hempty.
  change (Z.of_nat (length (filter available (table sample_db)))) with 2 in Ht, Hb.
  exists r. split; [exact Hf|]. split; [apply Hempty; lia|].
  split; [exact Hp|]. split; [exact Ht|]. lia.
Defined.

Lemma lastPage_correct_witness :
  exists r,
    findAll {| page := None; limit := Some 2%positive |} three_row_db =
      (Fulfilled r, three_row_db) /\
    meta_total (meta r) = 3 /\ meta_lastPage (meta r) = 2.
Proof.
  destruct (lastPage_correct {| page := None; limit := Some 2%positive |} three_row_db)
    as [r [Hf [Ht [Hb Hz]]]].
  cbn [limit] in Hb.
  change (Z.of_nat (length (filter available (table three_row_db)))) with 3 in Ht.
  exists r. split; [exact Hf|]. split; [exact Ht|]. lia.
Defined.

Lemma timestamps_monotonic_witness :
  In (mkProduct 1 "Laptop" 8999900 true 1000 1010)
     (table (run busy_history (fresh_db 1000))) /\
  createdAt (mkProduct 1 "Laptop" 8999900 true 1000 1010) <=
  updatedAt (mkProduct 1 "Laptop" 8999900 true 1000 1010).
Proof.
  assert (Hin : In (mkProduct 1 "Laptop" 8999900 true 1000 1010)
                   (table (run busy_history (fresh_db 1000)))).
  { simpl. left. reflexivity. }
  split; [exact Hin|].
  exact (timestamps_monotonic 1000 busy_history _ Hin).
Defined.

Lemma update_source_dist_agree_witness :
  Dist.update 1 controller_patch sample_db = update 1 controller_patch sample_db.
Proof.
  apply (update_source_dist_agree 1 controller_patch sample_db).
  right. split; [reflexivity|]. right. discriminate.
Defined.

(** The two also part on a patch that carries the addressed id and nothing
    else: the source then writes nothing and hands the row back with the
    [updatedAt] it had, the compiled copy writes the id and stamps the
    row. *)
Lemma update_source_dist_differ_bare_id :
  fst (update 1 bare_id_patch sample_db) =
    Fulfilled (mkProduct 1 "Laptop" 9999900 true 1000 1000) /\
  snd (update 1 bare_id_patch sample_db) = sample_db /\
  fst (Dist.update 1 bare_id_patch sample_db) =
    Fulfilled (mkProduct 1 "Laptop" 9999900 true 1000 1010).
Proof. repeat split. Qed.

(** C10, as stated, fails: addressed to product 1 with a patch whose [id]
    is 2, the source leaves the row under key 1 while the compiled copy
    moves it to key 2. *)
Lemma update_source_dist_differ :
  fst (update 1 stray_id_patch one_row_db) =
    Fulfilled (mkProduct 1 "Laptop" 8999900 true 1000 1000) /\
  fst (Dist.update 1 stray_id_patch one_row_db) =
    Fulfilled (mkProduct 2 "Laptop" 8999900 true 1000 1000) /\
  Dist.update 1 stray_id_patch one_row_db <> update 1 stray_id_patch one_row_db.
Proof.
  split; [reflexivity|]. split; [reflexivity|].
  intros E. apply (f_equal fst) in E. vm_compute in E. discriminate E.
Qed.

End Instances.

(** * More of the service *)

(** ** [create] *)

Section Creating.

Import Prisma.

Lemma find_snoc (f : Product -> bool) (rows : list Product) (p : Product) :
  find f (rows ++ [p]) =
  match find f rows with
  | Some q => Some q
  | None => if f p then Some p else None
  end.
Proof.
  induction rows as [|r rest IH]; simpl.
  - reflexivity.
  - destruct (f r); trivial.
Qed.

Lemma create_unfold (d : CreateProductDto) (db : Db) :
  create d db =
  (Fulfilled {| id := next_id db;
                name := create_name d;
                price := create_price d;
                available := true;
                createdAt := clock db;
                updatedAt := clock db |},
   {| table := table db ++ [ {| id := next_id db;
                                name := create_name d;
                                price := create_price d;
                                available := true;
                                createdAt := clock db;
                                updatedAt := clock db |} ];
      sqlite_sequence := next_id db;
      clock := clock db |}).
Proof. reflexivity. Qed.

Lemma next_id_above (db : Db) (q : Product) :
  In q (table db) -> id q < next_id db.
Proof.
  intros Hin. apply max_id_bound in Hin. unfold next_id. lia.
Qed.

(** X1. [create] is always fulfilled.  The row it returns carries the name
    and price of the DTO, is available, has equal creation and update
    times, and a key above every key of the table; reading that key back
    with [findOne] right away returns the very same row. *)
Theorem create_then_findOne (d : CreateProductDto) (db : Db) :
  exists p db1,
    create d db = (Fulfilled p, db1) /\
    name p = create_name d /\ price p = create_price d /\
    available p = true /\ createdAt p = updatedAt p /\
    (forall q, In q (table db) -> id q < id p) /\
    findOne (id p) db1 = (Fulfilled p, db1).
Proof.
  rewrite create_unfold. eexists. eexists. split; [reflexivity|].
  cbn [id name price available createdAt updatedAt].
  repeat (split; [reflexivity|]). split.
  - intros q. apply next_id_above.
  - rewrite findOne_unfold. cbn [table]. rewrite find_snoc.
    rewrite find_available_none.
    + unfold has_id. cbn [id available]. now rewrite Z.eqb_refl.
    + intros q Hin Hq. apply next_id_above in Hin. lia.
Qed.

(** X2. [create] adds one row at the end of the table and touches nothing
    else: the new product comes last among the available ones, the count
    that [findAll] reports grows by one, and [findOne] of any other key
    answers as before. *)
Theorem create_frame (d : CreateProductDto) (db : Db) :
  exists p db1,
    create d db = (Fulfilled p, db1) /\
    table db1 = table db ++ [p] /\
    available_rows db1 = available_rows db ++ [p] /\
    (forall pg, exists r r1,
        findAll pg db = (Fulfilled r, db) /\
        findAll pg db1 = (Fulfilled r1, db1) /\
        meta_total (meta r1) = meta_total (meta r) + 1) /\
    (forall j, j <> id p -> fst (findOne j db1) = fst (findOne j db)).
Proof.
  rewrite create_unfold. eexists. eexists. split; [reflexivity|].
  split; [reflexivity|].
  assert (Hav : forall p, available p = true ->
            filter available (table db ++ [p]) = filter available (table db) ++ [p]).
  { intros p Hp. rewrite filter_app. simpl. now rewrite Hp. }
  split; [apply Hav; reflexivity|]. split.
  - intros pg. rewrite !findAll_unfold. cbv zeta. eexists. eexists.
    split; [reflexivity|]. split; [reflexivity|].
    cbn [meta meta_total]. unfold available_rows. cbn [table].
    rewrite Hav by reflexivity. rewrite length_app. simpl. lia.
  - cbn [id]. intros j Hj. rewrite !findOne_unfold. cbn [table].
    rewrite find_snoc.
    destruct (find (fun q => has_id j q && available q) (table db)); trivial.
    unfold has_id at 1. cbn [id available].
    destruct (Z.eqb_spec (next_id db) j) as [E|_]; [congruence|reflexivity].
Qed.

End Creating.

(** ** [update] and [remove] *)

Section Writing.

Import Prisma.

Lemma same_key_same_row (p q : Product) (rows : list Product) :
  NoDup (map id rows) -> In p rows -> In q rows -> id q = id p -> q = p.
Proof.
  induction rows as [|r rest IH]; simpl; intros ND Hp Hq E.
  - contradiction.
  - inversion ND as [|? ? Hnotin ND']; subst.
    destruct Hp as [-> | Hp]; destruct Hq as [-> | Hq]; trivial.
    + exfalso. apply Hnotin. rewrite <- E. now apply in_map_id.
    + exfalso. apply Hnotin. rewrite E. now apply in_map_id.
    + now apply IH.
Qed.

(** A fulfilled checked write, spelled out: the row that was there, the
    row that is there now, and the table around it. *)
Lemma checked_write_fulfilled (i : Z) (d : ProductUpdateInput) (p' : Product) (db db' : Db) :
  set_id d = None -> primary_key db ->
  checked_write i d db = (Fulfilled p', db') ->
  exists p,
    In p (table db) /\ id p = i /\ available p = true /\
    p' = written d (clock db) p /\
    db' = {| table := map (fun q => if has_id i q then p' else q) (table db);
             sqlite_sequence := sqlite_sequence db;
             clock := clock db |}.
Proof.
  intros Hd PK Hw.
  pose proof (checked_write_outcome i d db Hd) as Hout. rewrite Hw in Hout.
  inversion Hout as [Hgone E | p r Hin Hi Hr Hri Hra E]; subst.
  assert (r = p) by (apply (same_key_same_row p r (table db) PK); trivial).
  subst r. exists p. repeat (split; trivial).
  now rewrite (replace_row_map (id p) _ (table db) PK).
Qed.

Lemma find_replace_other (i j : Z) (p' : Product) (rows : list Product) :
  id p' = i -> j <> i ->
  find (fun q => has_id j q && available q) (replace_row i p' rows) =
  find (fun q => has_id j q && available q) rows.
Proof.
  intros Hi Hj. induction rows as [|r rest IH]; simpl; trivial.
  destruct (has_id i r) eqn:Hr; simpl.
  - apply has_id_true in Hr.
    replace (has_id j p') with false by (symmetry; apply has_id_false; congruence).
    replace (has_id j r) with false by (symmetry; apply has_id_false; congruence).
    reflexivity.
  - now rewrite IH.
Qed.

Lemma checked_write_frame (i j : Z) (d : ProductUpdateInput) (db : Db) :
  set_id d = None -> j <> i ->
  fst (findOne j (snd (checked_write i d db))) = fst (findOne j db).
Proof.
  intros Hd Hj.
  destruct (checked_write_outcome i d db Hd) as [Hgone | p r Hin Hi _ _ _]; trivial.
  rewrite !findOne_unfold. cbn [snd table].
  rewrite find_replace_other; trivial.
  - now destruct (find _ (table db)).
  - now rewrite written_id.
Qed.

(** After a fulfilled checked write the key constraint still holds and the
    row written is the available row of its key. *)
Lemma checked_write_readback (i : Z) (d : ProductUpdateInput) (p' : Product) (db db' : Db) :
  set_id d = None -> set_available d = None -> primary_key db ->
  checked_write i d db = (Fulfilled p', db') ->
  primary_key db' /\ In p' (table db') /\ id p' = i /\ available p' = true.
Proof.
  intros Hd Hav PK Hw.
  destruct (checked_write_fulfilled i d p' db db' Hd PK Hw)
    as [p [Hin [Hi [Ha [Hp' Hdb']]]]].
  split; [|split; [|split]].
  - unfold primary_key in *. rewrite <- (checked_write_keys i d db Hd) in PK.
    now rewrite Hw in PK.
  - subst db'. cbn [table]. apply in_map_iff. exists p. split; trivial.
    replace (has_id i p) with true by (symmetry; now apply has_id_true).
    reflexivity.
  - subst p'. now rewrite written_id.
  - subst p'. unfold written, apply_update. destruct (no_data d); simpl; trivial.
    now rewrite Hav.
Qed.

(** X3. Write then read: the row a fulfilled [update] returns is the row
    [findOne] returns for that id right afterwards. *)
Theorem update_then_findOne (i : Z) (d : UpdateProductDto) (p' : Product) (db db' : Db) :
  primary_key db ->
  update i d db = (Fulfilled p', db') ->
  findOne i db' = (Fulfilled p', db').
Proof.
  intros PK Hu. rewrite update_as_write in Hu.
  destruct (checked_write_readback i (rest_without_id d) p' db db'
              eq_refl eq_refl PK Hu) as [PK' [Hin [Hi Ha]]].
  now apply findOne_found.
Qed.

(** X4. A write to one product is invisible to every other: after
    [update] or [remove] of id [i], fulfilled or not, [findOne] of any
    other id answers as it did before. *)
Theorem write_leaves_others (i j : Z) (d : UpdateProductDto) (db : Db) :
  j <> i ->
  fst (findOne j (snd (update i d db))) = fst (findOne j db) /\
  fst (findOne j (snd (remove i db))) = fst (findOne j db).
Proof.
  intros Hj. split.
  - rewrite update_as_write. now apply checked_write_frame.
  - rewrite remove_as_write. now apply checked_write_frame.
Qed.

Lemma map_id_available_rows (f : Product -> Product) (rows : list Product) :
  (forall q, In q rows -> id (f q) = id q /\ available (f q) = available q) ->
  map id (filter available (map f rows)) = map id (filter available rows).
Proof.
  induction rows as [|r rest IH]; simpl; intros Hf; trivial.
  destruct (Hf r (or_introl eq_refl)) as [Hid Hav]. rewrite Hav.
  destruct (available r); simpl; rewrite IH; auto; congruence.
Qed.

(** X5. [update] never moves a product to another page: for every page and
    limit, [findAll] after the update reports the same [meta] and the same
    ids in [data], in the same order, as before it. *)
Theorem update_keeps_pages (i : Z) (d : UpdateProductDto) (pg : PaginationDto) (db : Db) :
  primary_key db ->
  let db' := snd (update i d db) in
  exists r r',
    findAll pg db = (Fulfilled r, db) /\
    findAll pg db' = (Fulfilled r', db') /\
    meta r' = meta r /\
    map id (data r') = map id (data r).
Proof.
  intros PK db'.
  assert (Hkeys : map id (available_rows db') = map id (available_rows db)).
  { subst db'. rewrite update_as_write.
    destruct (checked_write i (rest_without_id d) db) as [[p'|e] db1] eqn:Hw.
    - destruct (checked_write_fulfilled i (rest_without_id d) p' db db1 eq_refl PK Hw)
        as [p [Hin [Hi [Ha [Hp' Hdb1]]]]].
      cbn [snd]. subst db1. unfold available_rows. cbn [table].
      apply map_id_available_rows. intros q Hq.
      destruct (has_id i q) eqn:Hk; [|auto].
      apply has_id_true in Hk.
      assert (q = p) by (apply (same_key_same_row p q (table db) PK); congruence).
      subst q p'. split; [now rewrite written_id | now rewrite written_available].
    - pose proof (checked_write_outcome i (rest_without_id d) db eq_refl) as Hout.
      rewrite Hw in Hout. inversion Hout; subst. reflexivity. }
  rewrite !findAll_unfold. cbv zeta. eexists. eexists.
  split; [reflexivity|]. split; [reflexivity|]. cbn [meta data]. split.
  - apply (f_equal (@length Z)) in Hkeys. rewrite !length_map in Hkeys.
    now rewrite Hkeys.
  - now rewrite <- !firstn_map, <- !skipn_map, Hkeys.
Qed.

(** X6. [update] twice is [update] once: repeating a fulfilled [update]
    with the same patch, before the clock moves, returns the same row and
    leaves the database as the first one left it. *)
Theorem update_idempotent (i : Z) (d : UpdateProductDto) (p' : Product) (db db' : Db) :
  primary_key db ->
  update i d db = (Fulfilled p', db') ->
  update i d db' = (Fulfilled p', db').
Proof.
  intros PK Hu. rewrite update_as_write in Hu.
  destruct (checked_write_readback i (rest_without_id d) p' db db'
              eq_refl eq_refl PK Hu) as [PK' [Hin' [Hi' Ha']]].
  destruct (checked_write_fulfilled i (rest_without_id d) p' db db' eq_refl PK Hu)
    as [p [Hin [Hi [Ha [Hp' Hdb']]]]].
  rewrite (update_fulfilled i d p' db' PK' Hin' Hi' Ha'). cbv zeta.
  assert (Hclock : clock db' = clock db) by (subst db'; reflexivity).
  assert (Hsame : written (rest_without_id d) (clock db') p' = p').
  { rewrite Hclock. rewrite Hp'. unfold written.
    destruct (no_data (rest_without_id d)); trivial.
    unfold apply_update, rest_without_id, or_keep.
    cbn. destruct (dto_name d), (dto_price d); reflexivity. }
  rewrite Hsame. f_equal. rewrite Hdb'. cbn [table sqlite_sequence clock].
  f_equal. rewrite map_map. apply map_ext. intros q.
  destruct (has_id i q) eqn:Hk.
  - replace (has_id i p') with true by (symmetry; now apply has_id_true).
    reflexivity.
  - now rewrite Hk.
Qed.

(** X7. The service never lets an error of the ORM through: whenever
    [findOne], [update] or [remove] is rejected, it is with the not-found
    exception for the id asked for, there is no available row of that id,
    and the database is exactly as it was. *)
Theorem rejections_are_not_found (i : Z) (d : UpdateProductDto) (e : Exception) (db db' : Db) :
  findOne i db = (Rejected e, db') \/
  update i d db = (Rejected e, db') \/
  remove i db = (Rejected e, db') ->
  e = NotFoundException (not_found_message i) /\
  db' = db /\
  (forall p, In p (table db) -> id p = i -> available p = false).
Proof.
  assert (Hw : forall u, set_id u = None ->
            checked_write i u db = (Rejected e, db') ->
            e = NotFoundException (not_found_message i) /\ db' = db /\
            (forall p, In p (table db) -> id p = i -> available p = false)).
  { intros u Hu E. pose proof (checked_write_outcome i u db Hu) as Hout.
    rewrite E in Hout. inversion Hout; subst. auto. }
  intros [Hf | [Hu | Hr]].
  - rewrite findOne_unfold in Hf.
    destruct (find _ (table db)) as [q|] eqn:Hfind; inversion Hf; subst.
    repeat split. intros p Hin Hi.
    pose proof (find_none _ _ Hfind p Hin) as Hn. simpl in Hn.
    apply has_id_true in Hi. now rewrite Hi in Hn.
  - rewrite update_as_write in Hu. now apply (Hw (rest_without_id d) eq_refl).
  - rewrite remove_as_write in Hr. now apply (Hw soft_delete eq_refl).
Qed.

End Writing.

(** ** What a write changes *)

Section Effects.

Import Prisma.

Lemma filter_available_soft_deleted (i : Z) (p' : Product) (rows : list Product) :
  available p' = false ->
  filter available (map (fun q => if has_id i q then p' else q) rows) =
  filter (fun q => negb (id q =? i)) (filter available rows).
Proof.
  intros Hoff. induction rows as [|r rest IH]; trivial.
  cbn [map filter]. unfold has_id in *. destruct (id r =? i) eqn:Hr.
  - rewrite Hoff, IH. destruct (available r); trivial.
    cbn [filter]. rewrite Hr. reflexivity.
  - rewrite IH. destruct (available r); trivial.
    cbn [filter]. rewrite Hr. reflexivity.
Qed.

Lemma filter_out_none (i : Z) (rows : list Product) :
  ~ In i (map id rows) ->
  filter (fun q => negb (id q =? i)) rows = rows.
Proof.
  induction rows as [|r rest IH]; simpl; intros Hnot; trivial.
  destruct (Z.eqb_spec (id r) i) as [E|_]; simpl.
  - exfalso. apply Hnot. now left.
  - f_equal. apply IH. intros H. apply Hnot. now right.
Qed.

Lemma filter_out_one (i : Z) (p : Product) (rows : list Product) :
  NoDup (map id rows) -> In p rows -> id p = i ->
  length rows = S (length (filter (fun q => negb (id q =? i)) rows)).
Proof.
  induction rows as [|r rest IH]; simpl; intros ND Hin Hi.
  - contradiction.
  - inversion ND as [|? ? Hnotin ND']; subst.
    destruct Hin as [-> | Hin].
    + rewrite Z.eqb_refl. simpl. now rewrite filter_out_none.
    + destruct (Z.eqb_spec (id r) (id p)) as [E|_]; simpl.
      * exfalso. apply Hnotin. rewrite E. now apply in_map_id.
      * f_equal. now apply IH.
Qed.

(** X8. What a fulfilled [update] returns, for any patch: the fields the
    patch carries are set and the fields it lacks stay; [updatedAt]
    becomes the current time when the patch carries a name or a price, and
    stays as it was when it carries neither (nothing is written then);
    [id], [available] and [createdAt] are never touched, whatever [id] the
    patch itself carries. *)
Theorem update_fields (i : Z) (d : UpdateProductDto) (p' : Product) (db db' : Db) :
  primary_key db ->
  update i d db = (Fulfilled p', db') ->
  exists p,
    findOne i db = (Fulfilled p, db) /\
    id p' = i /\
    name p' = match dto_name d with Some n => n | None => name p end /\
    price p' = match dto_price d with Some x => x | None => price p end /\
    available p' = true /\
    createdAt p' = createdAt p /\
    updatedAt p' = match dto_name d, dto_price d with
                   | None, None => updatedAt p
                   | _, _ => clock db
                   end /\
    length (table db') = length (table db).
Proof.
  intros PK Hu. rewrite update_as_write in Hu.
  destruct (checked_write_fulfilled i (rest_without_id d) p' db db' eq_refl PK Hu)
    as [p [Hin [Hi [Ha [Hp' Hdb']]]]].
  exists p. split; [now apply findOne_found|].
  assert (Hlen : length (table db') = length (table db)).
  { subst db'. cbn [table]. apply length_map. }
  subst p'. unfold written, no_data, apply_update, rest_without_id, or_keep.
  cbn [set_id set_name set_price set_available].
  destruct (dto_name d), (dto_price d);
    cbn [id name price available createdAt updatedAt];
    repeat (split; trivial).
Qed.

(** X9. What a fulfilled [remove] does: it returns the row as it was but
    flagged off and stamped with the current time, keeps the row in the
    table, and takes exactly that product out of what reads can see, so
    the count of available products drops by one. *)
Theorem remove_effect (i : Z) (p' : Product) (db db' : Db) :
  primary_key db ->
  remove i db = (Fulfilled p', db') ->
  exists p,
    findOne i db = (Fulfilled p, db) /\
    p' = {| id := id p;
            name := name p;
            price := price p;
            available := false;
            createdAt := createdAt p;
            updatedAt := clock db |} /\
    In p' (table db') /\
    length (table db') = length (table db) /\
    available_rows db' = filter (fun q => negb (id q =? i)) (available_rows db) /\
    length (available_rows db) = S (length (available_rows db')).
Proof.
  intros PK Hr. rewrite remove_as_write in Hr.
  destruct (checked_write_fulfilled i soft_delete p' db db' eq_refl PK Hr)
    as [p [Hin [Hi [Ha [Hp' Hdb']]]]].
  exists p. split; [now apply findOne_found|].
  split; [exact Hp'|].
  assert (Hrows : available_rows db' =
                  filter (fun q => negb (id q =? i)) (available_rows db)).
  { subst db'. unfold available_rows. cbn [table].
    apply filter_available_soft_deleted. now subst p'. }
  split; [|split; [|split]].
  - subst db'. cbn [table]. apply in_map_iff. exists p. split; trivial.
    replace (has_id i p) with true by (symmetry; now apply has_id_true).
    reflexivity.
  - subst db'. cbn [table]. apply length_map.
  - exact Hrows.
  - rewrite Hrows. apply (filter_out_one i p).
    + apply NoDup_map_filter. exact PK.
    + apply available_rows_in. auto.
    + exact Hi.
Qed.

End Effects.

(** ** What no history does *)

Section Permanence.

Import Prisma.

Lemma replace_found_map {B : Type} (g : Product -> B) (i : Z) (p p' : Product)
      (rows : list Product) :
  find (has_id i) rows = Some p -> g p' = g p ->
  map g (replace_row i p' rows) = map g rows.
Proof.
  intros Hf Hg. induction rows as [|r rest IH]; simpl in *; trivial.
  destruct (has_id i r); simpl.
  - inversion Hf; subst. now rewrite Hg.
  - now rewrite IH.
Qed.

Lemma checked_write_birth (i : Z) (d : ProductUpdateInput) (db : Db) :
  set_id d = None ->
  map birth (table (snd (checked_write i d db))) = map birth (table db).
Proof.
  intros Hd. unfold checked_write, await. rewrite findOne_unfold.
  destruct (find (fun q => has_id i q && available q) (table db)) as [r|]; trivial.
  destruct (find (has_id i) (table db)) as [p|] eqn:Hf.
  - rewrite (product_update_in_place i d p db Hd Hf). cbn [snd table].
    apply (replace_found_map birth i p); trivial.
    unfold birth. rewrite written_id by exact Hd.
    f_equal. apply written_stamps.
  - unfold product_update. now rewrite Hf.
Qed.

Lemma checked_write_sequence (i : Z) (d : ProductUpdateInput) (db : Db) :
  set_id d = None ->
  sqlite_sequence (snd (checked_write i d db)) = sqlite_sequence db.
Proof.
  intros Hd. now destruct (checked_write_outcome i d db Hd).
Qed.

Lemma checked_write_length (i : Z) (d : ProductUpdateInput) (db : Db) :
  set_id d = None ->
  length (table (snd (checked_write i d db))) = length (table db).
Proof.
  intros Hd. rewrite <- (length_map id), checked_write_keys by exact Hd.
  apply length_map.
Qed.

Lemma step_birth (e : Event) (db : Db) :
  exists born, map birth (table (step e db)) = map birth (table db) ++ born.
Proof.
  destruct e as [d|d|i|i d|i|ms].
  - rewrite step_create_table, map_app. eexists. reflexivity.
  - exists []. now rewrite app_nil_r.
  - exists []. simpl. now rewrite findOne_state, app_nil_r.
  - exists []. rewrite step_update, checked_write_birth, app_nil_r; reflexivity.
  - exists []. rewrite step_remove, checked_write_birth, app_nil_r; reflexivity.
  - exists []. now rewrite app_nil_r.
Qed.

(** X10. No row is ever erased or re-keyed: after any sequence of calls,
    the table still holds a row for every row it held before, in the same
    place, under the same id and with the same creation time; rows are only
    ever added at the end. *)
Theorem rows_never_erased (history : list Event) (db : Db) :
  exists born,
    map birth (table (run history db)) = map birth (table db) ++ born.
Proof.
  revert db. induction history as [|e h IH]; intros db.
  - exists []. now rewrite app_nil_r.
  - rewrite run_cons. destruct (IH (step e db)) as [later Hlater].
    destruct (step_birth e db) as [born Hborn].
    exists (born ++ later). now rewrite Hlater, Hborn, app_assoc.
Qed.

Lemma max_id_keys (rows : list Product) :
  max_id rows = fold_right Z.max 0 (map id rows).
Proof. induction rows as [|r rest IH]; simpl; congruence. Qed.

Lemma fold_max_snoc (x : Z) (keys : list Z) :
  fold_right Z.max 0 (keys ++ [x]) = Z.max (fold_right Z.max 0 keys) (Z.max x 0).
Proof. induction keys as [|k keys IH]; simpl; lia. Qed.

Lemma first_keys_succ (n : nat) :
  first_keys (S n) = first_keys n ++ [Z.of_nat (S n)].
Proof. unfold first_keys. now rewrite seq_S, map_app. Qed.

Lemma max_first_keys (n : nat) : fold_right Z.max 0 (first_keys n) = Z.of_nat n.
Proof.
  induction n as [|n IH].
  - reflexivity.
  - rewrite first_keys_succ, fold_max_snoc, IH. lia.
Qed.

Lemma step_consecutive (e : Event) (db : Db) :
  map id (table db) = first_keys (length (table db)) /\
  sqlite_sequence db <= Z.of_nat (length (table db)) ->
  map id (table (step e db)) = first_keys (length (table (step e db))) /\
  sqlite_sequence (step e db) <= Z.of_nat (length (table (step e db))).
Proof.
  intros [Hkeys Hseq]. destruct e as [d|d|i|i d|i|ms]; auto.
  - assert (Hnext : next_id db = Z.of_nat (S (length (table db)))).
    { unfold next_id. rewrite max_id_keys, Hkeys, max_first_keys. lia. }
    rewrite step_create_table, map_app, length_app. cbn [map id length].
    rewrite Nat.add_1_r, first_keys_succ, Hkeys, Hnext. split; trivial.
    simpl step. cbn [sqlite_sequence id]. lia.
  - simpl. now rewrite findOne_state.
  - rewrite step_update, checked_write_keys, checked_write_sequence,
      checked_write_length; auto.
  - rewrite step_remove, checked_write_keys, checked_write_sequence,
      checked_write_length; auto.
Qed.

(** X11. Ids are handed out in order and for good: in a database that
    started empty, after any sequence of calls, the rows carry the ids
    1, 2, ..., n in the order they were created, so that no two rows share
    an id and the next product created gets n + 1, however many of the
    earlier ones were removed meanwhile. *)
Theorem keys_consecutive (t0 : DateTime) (history : list Event) :
  let db := run history (fresh_db t0) in
  map id (table db) = first_keys (length (table db)) /\
  primary_key db /\
  forall d, exists p db1,
    create d db = (Fulfilled p, db1) /\
    id p = Z.of_nat (length (table db)) + 1.
Proof.
  intros db.
  assert (Hinv : map id (table db) = first_keys (length (table db)) /\
                 sqlite_sequence db <= Z.of_nat (length (table db))).
  { subst db.
    apply (run_invariant
             (fun db => map id (table db) = first_keys (length (table db)) /\
                        sqlite_sequence db <= Z.of_nat (length (table db)))).
    - exact step_consecutive.
    - split; [reflexivity|]. simpl. lia. }
  destruct Hinv as [Hkeys Hseq]. split; [exact Hkeys|]. split.
  - subst db. apply run_primary_key, fresh_primary_key.
  - intros d. rewrite create_unfold. eexists. eexists. split; [reflexivity|].
    cbn [id]. unfold next_id. rewrite max_id_keys, Hkeys, max_first_keys. lia.
Qed.

End Permanence.

(** ** The size of a page *)

Section PageSize.

(** X12. How many rows a page holds: with [total] available rows, the
    page and limit asked for (1 and 10 when not given) give [data] exactly
    [min limit (max 0 (total - (page - 1) * limit))] rows, each of them an
    available row of the table; [data] is empty exactly when every
    available row lies on an earlier page, which is exactly when the page
    lies beyond [meta.lastPage]. *)
Theorem findAll_page_size (pg : PaginationDto) (db : Db) :
  let l := match limit pg with Some v => Z.pos v | None => 10 end in
  let k := match page pg with Some v => Z.pos v | None => 1 end in
  let total := Z.of_nat (length (filter available (table db))) in
  exists r,
    findAll pg db = (Fulfilled r, db) /\
    Z.of_nat (length (data r)) = Z.min l (Z.max 0 (total - (k - 1) * l)) /\
    (data r = [] <-> total <= (k - 1) * l) /\
    (data r = [] <-> meta_lastPage (meta r) < k) /\
    (forall q, In q (data r) -> In q (table db) /\ available q = true).
Proof.
  intros l k total. rewrite findAll_requested. cbv zeta. fold l k.
  eexists. split; [reflexivity|].
  cbn [data meta meta_total meta_lastPage].
  assert (Hrows : forall q, In q (available_rows db) ->
                            In q (table db) /\ available q = true).
  { intros q Hq. now apply available_rows_in. }
  unfold available_rows in *. fold total.
  pose proof (requested_limit_pos pg) as Hl. fold l in Hl.
  pose proof (requested_page_pos pg) as Hk. fold k in Hk.
  pose proof (Math_ceil_div_bounds total l Hl) as Hb.
  set (rows := filter available (table db)) in *.
  assert (Htotal : total = Z.of_nat (length rows)) by reflexivity.
  clearbody l k rows total.
  assert (Hlen : Z.of_nat (length (firstn (Z.to_nat l)
                                     (skipn (Z.to_nat ((k - 1) * l)) rows))) =
                 Z.min l (Z.max 0 (total - (k - 1) * l))).
  { rewrite length_firstn, length_skipn.
    assert (Hs : 0 <= (k - 1) * l) by nia.
    generalize dependent ((k - 1) * l). intros s Hs. lia. }
  assert (Hempty : firstn (Z.to_nat l) (skipn (Z.to_nat ((k - 1) * l)) rows) = [] <->
                   total <= (k - 1) * l).
  { rewrite <- length_zero_iff_nil. lia. }
  split; [exact Hlen|]. split; [exact Hempty|]. split.
  - rewrite Hempty. split; intros H; nia.
  - intros q Hq. apply in_firstn, in_skipn in Hq. now apply Hrows.
Qed.

End PageSize.

(** ** The compiled copy of [update] *)

Section CompiledCopy.

Import Prisma.

Lemma find_moved (i j : Z) (p p' : Product) (rows : list Product) :
  In p rows -> id p = i -> ~ In j (map id rows) ->
  id p' = j -> available p' = true ->
  find (fun q => has_id j q && available q) (replace_row i p' rows) = Some p'.
Proof.
  intros Hin Hi Hfree Hj Ha. induction rows as [|r rest IH]; simpl in *.
  - contradiction.
  - destruct (has_id i r) eqn:Hr; simpl.
    + replace (has_id j p') with true by (symmetry; now apply has_id_true).
      now rewrite Ha.
    + replace (has_id j r) with false
        by (symmetry; apply has_id_false; intros E; apply Hfree; now left).
      simpl. apply IH.
      * destruct Hin as [-> | Hin]; trivial.
        apply has_id_false in Hr. contradiction.
      * intros H. apply Hfree. now right.
Qed.

Lemma dist_update_unfold (i j : Z) (n : option string) (x : option Price)
      (p : Product) (db : Db) :
  primary_key db -> In p (table db) -> id p = i -> available p = true ->
  Dist.update i {| dto_id := Some j; dto_name := n; dto_price := x |} db =
  let p' := {| id := j;
               name := or_keep n (name p);
               price := or_keep x (price p);
               available := true;
               createdAt := createdAt p;
               updatedAt := clock db |} in
  if negb (j =? i) && existsb (has_id j) (table db)
  then (Rejected (PrismaClientKnownRequestError "P2002"), db)
  else (Fulfilled p',
        {| table := replace_row i p' (table db);
           sqlite_sequence := sqlite_sequence db;
           clock := clock db |}).
Proof.
  intros PK Hin Hi Ha. unfold Dist.update, await.
  rewrite (findOne_found i p db PK Hin Hi Ha).
  unfold product_update. rewrite (find_has_id i p (table db) PK Hin Hi).
  unfold apply_update, Dist.whole_dto.
  cbn [set_id set_name set_price set_available dto_id dto_name dto_price id or_keep].
  now rewrite Ha.
Qed.

(** X13. The compiled copy lets a patch re-key a product: addressed to an
    available product [i] with a patch whose [id] is a key [j] that no row
    holds, its [update] is fulfilled and moves the row to key [j]; from
    then on [findOne i] is rejected as not found and [findOne j] returns
    the row. *)
Theorem dist_update_moves_key (i j : Z) (n : option string) (x : option Price)
        (p : Product) (db : Db) :
  primary_key db -> In p (table db) -> id p = i -> available p = true ->
  ~ In j (map id (table db)) ->
  exists p' db',
    Dist.update i {| dto_id := Some j; dto_name := n; dto_price := x |} db =
      (Fulfilled p', db') /\
    id p' = j /\ createdAt p' = createdAt p /\
    findOne i db' = (Rejected (NotFoundException (not_found_message i)), db') /\
    findOne j db' = (Fulfilled p', db').
Proof.
  intros PK Hin Hi Ha Hfree.
  rewrite (dist_update_unfold i j n x p db PK Hin Hi Ha). cbv zeta.
  rewrite (existsb_has_id_false j (table db) Hfree), andb_false_r.
  eexists. eexists. split; [reflexivity|].
  split; [reflexivity|]. split; [reflexivity|].
  assert (Hji : j <> i).
  { intros E. apply Hfree. rewrite E, <- Hi. now apply in_map_id. }
  split.
  - apply findOne_not_found. cbn [table].
    rewrite (replace_row_map i _ (table db) PK).
    intros q Hq Hqi. apply in_map_iff in Hq. destruct Hq as [q0 [Hq0 _]].
    destruct (has_id i q0) eqn:Hk; subst q.
    + simpl in Hqi. contradiction.
    + apply has_id_false in Hk. contradiction.
  - rewrite findOne_unfold. cbn [table].
    rewrite (find_moved i j p); trivial.
Qed.

(** X14. The compiled copy can fail where the source cannot: addressed to
    an available product [i] with a patch whose [id] is the key of another
    row, its [update] is rejected with the unique-constraint error P2002
    and writes nothing, while the source's [update] is fulfilled on the
    same call. *)
Theorem dist_update_key_taken (i j : Z) (n : option string) (x : option Price)
        (p : Product) (db : Db) :
  primary_key db -> In p (table db) -> id p = i -> available p = true ->
  j <> i -> In j (map id (table db)) ->
  Dist.update i {| dto_id := Some j; dto_name := n; dto_price := x |} db =
    (Rejected (PrismaClientKnownRequestError "P2002"), db) /\
  exists p' db',
    update i {| dto_id := Some j; dto_name := n; dto_price := x |} db =
      (Fulfilled p', db').
Proof.
  intros PK Hin Hi Ha Hji Htaken. split.
  - rewrite (dist_update_unfold i j n x p db PK Hin Hi Ha). cbv zeta.
    replace (j =? i) with false by (symmetry; now apply Z.eqb_neq).
    replace (existsb (has_id j) (table db)) with true; [reflexivity|].
    symmetry. apply existsb_exists. apply in_map_iff in Htaken.
    destruct Htaken as [q [Hq Hqin]]. exists q. split; trivial.
    now apply has_id_true.
  - rewrite (update_fulfilled i _ p db PK Hin Hi Ha). eexists. eexists. reflexivity.
Qed.

End CompiledCopy.

(** ** These properties on the sample data *)

Section MoreInstances.

Lemma update_then_findOne_witness :
  update 1 full_patch sample_db =
    (Fulfilled (mkProduct 1 "Notebook" 7999900 true 1000 1010),
     snd (update 1 full_patch sample_db)) /\
  findOne 1 (snd (update 1 full_patch sample_db)) =
    (Fulfilled (mkProduct 1 "Notebook" 7999900 true 1000 1010),
     snd (update 1 full_patch sample_db)).
Proof.
  split; [reflexivity|].
  apply (update_then_findOne 1 full_patch
           (mkProduct 1 "Notebook" 7999900 true 1000 1010)
           sample_db (snd (update 1 full_patch sample_db))).
  - exact sample_primary_key.
  - reflexivity.
Defined.

Lemma write_leaves_others_witness :
  fst (findOne 2 (snd (update 1 full_patch sample_db))) = Fulfilled mouse_row /\
  fst (findOne 2 (snd (remove 1 sample_db))) = Fulfilled mouse_row.
Proof.
  apply (write_leaves_others 1 2 full_patch sample_db). discriminate.
Defined.

Lemma update_keeps_pages_witness :
  exists r r',
    findAll {| page := Some 2%positive; limit := Some 1%positive |} sample_db =
      (Fulfilled r, sample_db) /\
    findAll {| page := Some 2%positive; limit := Some 1%positive |}
            (snd (update 2 full_patch sample_db)) =
      (Fulfilled r', snd (update 2 full_patch sample_db)) /\
    meta r' = meta r /\
    map id (data r') = map id (data r).
Proof.
  apply (update_keeps_pages 2 full_patch
           {| page := Some 2%positive; limit := Some 1%positive |} sample_db).
  exact sample_primary_key.
Defined.

Lemma update_idempotent_witness :
  update 1 full_patch (snd (update 1 full_patch sample_db)) =
  (Fulfilled (mkProduct 1 "Notebook" 7999900 true 1000 1010),
   snd (update 1 full_patch sample_db)).
Proof.
  apply (update_idempotent 1 full_patch
           (mkProduct 1 "Notebook" 7999900 true 1000 1010)
           sample_db (snd (update 1 full_patch sample_db))).
  - exact sample_primary_key.
  - reflexivity.
Defined.

Lemma rejections_are_not_found_witness :
  update 7 full_patch sample_db =
    (Rejected (NotFoundException "Product with id #7 not found"), sample_db) /\
  NotFoundException "Product with id #7 not found" =
    NotFoundException (not_found_message 7) /\
  sample_db = sample_db /\
  (forall p, In p (table sample_db) -> id p = 7 -> available p = false).
Proof.
  split; [reflexivity|].
  apply (rejections_are_not_found 7 full_patch
           (NotFoundException "Product with id #7 not found") sample_db sample_db).
  right. left. reflexivity.
Defined.

Lemma update_fields_witness :
  (exists p,
    findOne 1 sample_db = (Fulfilled p, sample_db) /\
    id (mkProduct 1 "Notebook" 7999900 true 1000 1010) = 1 /\
    name (mkProduct 1 "Notebook" 7999900 true 1000 1010) =
      match dto_name full_patch with Some n => n | None => name p end /\
    price (mkProduct 1 "Notebook" 7999900 true 1000 1010) =
      match dto_price full_patch with Some x => x | None => price p end /\
    available (mkProduct 1 "Notebook" 7999900 true 1000 1010) = true /\
    createdAt (mkProduct 1 "Notebook" 7999900 true 1000 1010) = createdAt p /\
    updatedAt (mkProduct 1 "Notebook" 7999900 true 1000 1010) =
      match dto_name full_patch, dto_price full_patch with
      | None, None => updatedAt p
      | _, _ => clock sample_db
      end /\
    length (table (snd (update 1 full_patch sample_db))) = length (table sample_db)) /\
  (exists p,
    findOne 1 sample_db = (Fulfilled p, sample_db) /\
    id laptop_row = 1 /\
    name laptop_row =
      match dto_name bare_id_patch with Some n => n | None => name p end /\
    price laptop_row =
      match dto_price bare_id_patch with Some x => x | None => price p end /\
    available laptop_row = true /\
    createdAt laptop_row = createdAt p /\
    updatedAt laptop_row =
      match dto_name bare_id_patch, dto_price bare_id_patch with
      | None, None => updatedAt p
      | _, _ => clock sample_db
      end /\
    length (table sample_db) = length (table sample_db)).
Proof.
  split.
  - apply (update_fields 1 full_patch
             (mkProduct 1 "Notebook" 7999900 true 1000 1010)
             sample_db (snd (update 1 full_patch sample_db))).
    + exact sample_primary_key.
    + reflexivity.
  - apply (update_fields 1 bare_id_patch laptop_row sample_db sample_db).
    + exact sample_primary_key.
    + reflexivity.
Defined.

Lemma remove_effect_witness :
  exists p,
    findOne 2 sample_db = (Fulfilled p, sample_db) /\
    mkProduct 2 "Mouse" 255000 false 1005 1010 =
      {| id := id p;
         name := name p;
         price := price p;
         available := false;
         createdAt := createdAt p;
         updatedAt := clock sample_db |} /\
    In (mkProduct 2 "Mouse" 255000 false 1005 1010)
       (table (snd (remove 2 sample_db))) /\
    length (table (snd (remove 2 sample_db))) = length (table sample_db) /\
    available_rows (snd (remove 2 sample_db)) =
      filter (fun q => negb (id q =? 2)) (available_rows sample_db) /\
    length (available_rows sample_db) =
      S (length (available_rows (snd (remove 2 sample_db)))).
Proof.
  apply (remove_effect 2 (mkProduct 2 "Mouse" 255000 false 1005 1010)
           sample_db (snd (remove 2 sample_db))).
  - exact sample_primary_key.
  - reflexivity.
Defined.

Lemma sample_key_free : ~ In 5 (map id (table sample_db)).
Proof. simpl. intros [H | [H | []]]; discriminate H. Defined.

Lemma dist_update_moves_key_witness :
  exists p' db',
    Dist.update 1 {| dto_id := Some 5; dto_name := None; dto_price := Some 8999900 |}
                sample_db = (Fulfilled p', db') /\
    id p' = 5 /\ createdAt p' = createdAt laptop_row /\
    findOne 1 db' = (Rejected (NotFoundException (not_found_message 1)), db') /\
    findOne 5 db' = (Fulfilled p', db').
Proof.
  apply (dist_update_moves_key 1 5 None (Some 8999900) laptop_row sample_db).
  - exact sample_primary_key.
  - simpl. left. reflexivity.
  - reflexivity.
  - reflexivity.
  - exact sample_key_free.
Defined.

Lemma dist_update_key_taken_witness :
  Dist.update 1 stray_id_patch sample_db =
    (Rejected (PrismaClientKnownRequestError "P2002"), sample_db) /\
  exists p' db', update 1 stray_id_patch sample_db = (Fulfilled p', db').
Proof.
  apply (dist_update_key_taken 1 2 None (Some 8999900) laptop_row sample_db).
  - exact sample_primary_key.
  - simpl. left. reflexivity.
  - reflexivity.
  - reflexivity.
  - discriminate.
  - simpl. right. left. reflexivity.
Defined.

Lemma findAll_page_size_witness :
  exists r,
    findAll {| page := Some 2%positive; limit := Some 2%positive |} three_row_db =
      (Fulfilled r, three_row_db) /\
    length (data r) = 1%nat /\
    (forall q, In q (data r) -> In q (table three_row_db) /\ available q = true).
Proof.
  destruct (findAll_page_size
              {| page := Some 2%positive; limit := Some 2%positive |} three_row_db)
    as [r [Hf [Hlen [_ [_ Hrows]]]]].
  cbn [limit page] in Hlen.
  change (Z.of_nat (length (filter available (table three_row_db)))) with 3 in Hlen.
  exists r. split; [exact Hf|]. split; [lia | exact Hrows].
Defined.

End MoreInstances.
